(** * Binance wallet balance server: request signing and portfolio valuation

  A shallow embedding of [server.js] (and of its near-duplicate variants):
  the request signer [generateSignature] / [createSignedParams] / [sign],
  the valuation [calculateTotalBalance], the pure part of the
  [/api/wallet/balance] handler that builds [balanceData], and the
  [/api/health] handlers; then the routes themselves against an exchange
  that answers or rejects each request, [getCurrentPrices], and the fee
  figure and the asset list of the dashboard page.

  JavaScript numbers are IEEE 754 binary64 values; they are modelled by
  Rocq's primitive floats, whose operations are the same binary64
  operations.  The library functions the source calls ([parseFloat],
  [Math.round], [Number.prototype.toFixed], [URLSearchParams],
  [crypto.createHmac]) are modelled from their specifications (ECMA-262,
  the WHATWG URL standard, FIPS 180-4 and RFC 2104). *)

From Stdlib Require Import ZArith List String Ascii Bool Lia Floats Sorted.
From stdpp Require Import gmap strings.

Set Default Proof Using "Type".

(* ===================================================================== *)
(** * JavaScript numbers *)
(* ===================================================================== *)

Module JsNumber.

Local Open Scope Z_scope.

(** The binary64 value nearest to [m * 2^e] (ties to even), with
    overflow to an infinity. *)
Definition round_binary (m e : Z) : float :=
  SF2Prim (binary_normalize prec emax m e false).

Definition signed (neg : bool) (x : float) : float :=
  if neg then (- x)%float else x.

(** The Number value of the decimal [n * 10^d], for [0 <= n]: the
    correctly rounded binary64 value.  The shortcuts only avoid huge
    powers where the result is already decided: [n * 10^d >= 2^1025]
    overflows (as [2^3 <= 10 <= 2^4]) and [n * 10^d < 2^-1100] rounds to
    zero (as [2^3.3 <= 10]).  Otherwise the quotient is formed with at
    least 66 bits and a sticky bit, which decides the rounding. *)
Definition of_decimal (neg : bool) (n d : Z) : float :=
  if n <=? 0 then signed neg zero
  else if (0 <=? d) && (1025 <=? Z.log2 n + 3 * d) then signed neg infinity
  else if (d <? 0) && (1025 <=? Z.log2 n + 4 * d) then signed neg infinity
  else if (d <? 0) && (10 * (Z.log2 n + 1) + 33 * d <? -11000) then signed neg zero
  else if 0 <=? d then signed neg (round_binary (n * 10 ^ d) 0)
  else
    let den := 10 ^ (- d) in
    let s := Z.max 0 (Z.log2 den + 66 - Z.log2 n) in
    let q := (n * 2 ^ s) / den in
    let sticky := if (n * 2 ^ s) mod den =? 0 then 0 else 1 in
    signed neg (round_binary (2 * q + sticky) (- s - 1)).

(** A number literal of the source or of a scenario, written as an
    integer mantissa and a decimal exponent: [lit 5 (-1)] is [0.5]. *)
Definition lit (n d : Z) : float :=
  if n <? 0 then of_decimal true (- n) d else of_decimal false n d.

Definition is_nan (x : float) : bool := PrimFloat.is_nan x.

(** The values the test [0 < x] accepts: [+Infinity] and the positive
    finite numbers. *)
Definition positive_sf (x : spec_float) : bool :=
  match x with
  | S754_infinity false | S754_finite false _ _ => true
  | _ => false
  end.

(** Every number but [-0]. *)
Definition not_neg_zero (x : float) : Prop := Prim2SF x <> S754_zero true.

(** [x > 0] of the source is [0 < x]; it is false on NaN. *)
Definition gt0 (x : float) : bool := (0 <? x)%float.

(** ** Math.round

    The integer nearest to [x], ties toward +infinity; NaN, the
    infinities and the zeros are returned unchanged, and a value in
    [[-0.5, 0)] gives [-0]. *)
Definition Math_round (x : float) : float :=
  match Prim2SF x with
  | S754_finite s m e =>
      if 0 <=? e then x
      else
        let v := if s then Z.neg m else Z.pos m in
        (* floor (v * 2^e + 1/2) *)
        let n := (2 * v + 2 ^ (- e)) / (2 * 2 ^ (- e)) in
        if n =? 0 then signed s zero else round_binary n 0
  | _ => x
  end.

(** ** Decimal digits *)

Definition digit_char (d : Z) : ascii := ascii_of_N (Z.to_N (48 + d)).

Fixpoint digits_fuel (fuel : nat) (n : Z) (acc : list ascii) : list ascii :=
  match fuel with
  | O => acc
  | S fuel' =>
      if n <? 10 then digit_char n :: acc
      else digits_fuel fuel' (n / 10) (digit_char (n mod 10) :: acc)
  end.

(** The decimal digits of [n >= 0], most significant first; ["0"] for 0. *)
Definition decimal_digits (n : Z) : list ascii :=
  digits_fuel (S (Z.to_nat (Z.log2 n))) n [].

Definition string_of_Z (n : Z) : string :=
  if n <? 0 then String "-" (string_of_list_ascii (decimal_digits (- n)))
  else string_of_list_ascii (decimal_digits n).

(** ** Number.prototype.toFixed *)

(** The integer [n] for which [n / 10^f] is nearest to [m * 2^e]; of two
    such integers the larger one (step 9a of the specification). *)
Definition nearest_scaled (f : nat) (m : positive) (e : Z) : Z :=
  let num := Z.pos m * 10 ^ Z.of_nat f in
  if 0 <=? e then num * 2 ^ e
  else (2 * num + 2 ^ (- e)) / (2 * 2 ^ (- e)).

(** [n] as a fixed-point numeral with [f] fractional digits. *)
Definition fixed_digits (f : nat) (n : Z) : string :=
  let ds := decimal_digits n in
  let ds := repeat "0"%char (S f - length ds) ++ ds in
  let k := (length ds - f)%nat in
  if Nat.eqb f 0 then string_of_list_ascii ds
  else string_of_list_ascii (firstn k ds ++ "."%char :: skipn k ds).

(** The text [x.toFixed(f)] returns.  At magnitudes of [10^21] and
    above the method returns [ToString(x)], the shortest round-trip
    numeral in exponent notation, which is kept as [Exponential x]. *)
Inductive numeral :=
| Text (s : string)
| Exponential (x : float).

Definition toFixed (f : nat) (x : float) : numeral :=
  match Prim2SF x with
  | S754_nan => Text "NaN"
  | S754_infinity s => Text (if s then "-Infinity" else "Infinity")
  | S754_zero _ => Text (fixed_digits f 0)
  | S754_finite s m e =>
      if (70 <=? e) || (10 ^ 21 <=? Z.pos m * 2 ^ (Z.max e 0)) then Exponential x
      else
        let body := fixed_digits f (nearest_scaled f m e) in
        Text (if s then String "-" body else body)
  end.

End JsNumber.

(* ===================================================================== *)
(** * JavaScript values *)
(* ===================================================================== *)

(** A string of the model is the UTF-8 encoding of the JavaScript string. *)

Module Js.

Import JsNumber.

(** The scalar values a decoded JSON document or an environment
    variable can hold. *)
Inductive value :=
| Undefined
| Null
| Boolean (b : bool)
| Number (x : float)
| Str (s : string).

(** ToBoolean: the test of [if (v)] and of [!!v]. *)
Definition truthy (v : value) : bool :=
  match v with
  | Undefined | Null => false
  | Boolean b => b
  | Number x => negb (PrimFloat.is_zero x || PrimFloat.is_nan x)
  | Str s => negb (String.eqb s "")
  end.

(** ** parseFloat *)

Definition is_digit (c : ascii) : bool :=
  let n := N_of_ascii c in ((48 <=? n) && (n <=? 57))%N.

Definition digit_val (c : ascii) : Z := Z.of_N (N_of_ascii c) - 48.

(** Reads a run of decimal digits, continuing the numeral [acc]; returns
    the numeral, the number of digits read and the rest of the input. *)
Fixpoint read_digits (s : list ascii) (acc cnt : Z) : Z * Z * list ascii :=
  match s with
  | c :: s' =>
      if is_digit c then read_digits s' (10 * acc + digit_val c) (cnt + 1)
      else (acc, cnt, s)
  | [] => (acc, cnt, [])
  end.

Fixpoint starts_with (p s : list ascii) : bool :=
  match p, s with
  | [], _ => true
  | a :: p', b :: s' => Ascii.eqb a b && starts_with p' s'
  | _ :: _, [] => false
  end.

(** White space and line terminators, as UTF-8 byte sequences. *)
Definition white_space : list (list ascii) :=
  map (map ascii_of_N)
    [ [9]; [10]; [11]; [12]; [13]; [32];
      [194; 160];                                   (* U+00A0 *)
      [225; 154; 128];                              (* U+1680 *)
      [226; 128; 128]; [226; 128; 129]; [226; 128; 130]; [226; 128; 131];
      [226; 128; 132]; [226; 128; 133]; [226; 128; 134]; [226; 128; 135];
      [226; 128; 136]; [226; 128; 137]; [226; 128; 138]; (* U+2000 .. U+200A *)
      [226; 128; 168]; [226; 128; 169];             (* U+2028, U+2029 *)
      [226; 128; 175]; [226; 129; 159];             (* U+202F, U+205F *)
      [227; 128; 128];                              (* U+3000 *)
      [239; 187; 191] ]%N.                          (* U+FEFF *)

Definition strip_one (s : list ascii) : option (list ascii) :=
  match List.filter (fun w => starts_with w s) white_space with
  | w :: _ => Some (skipn (length w) s)
  | [] => None
  end.

Fixpoint trim_start (fuel : nat) (s : list ascii) : list ascii :=
  match fuel with
  | O => s
  | S fuel' =>
      match strip_one s with
      | Some s' => trim_start fuel' s'
      | None => s
      end
  end.

(** The exponent part [e], [e+] or [e-] followed by digits; an
    indicator without digits is not part of the literal. *)
Definition read_exponent (s : list ascii) : Z :=
  match s with
  | c :: r =>
      if Ascii.eqb c "e" || Ascii.eqb c "E" then
        let '(neg, r') :=
          match r with
          | "+"%char :: r' => (false, r')
          | "-"%char :: r' => (true, r')
          | _ => (false, r)
          end in
        let '(n, cnt, _) := read_digits r' 0 0 in
        if cnt =? 0 then 0 else if neg then - n else n
      else 0
  | [] => 0
  end%Z.

(** The longest prefix that is a StrUnsignedDecimalLiteral, evaluated. *)
Definition parse_unsigned (neg : bool) (s : list ascii) : float :=
  if starts_with (list_ascii_of_string "Infinity") s then signed neg infinity
  else
    let '(ip, ic, r1) := read_digits s 0 0 in
    let '(m, fc, r2) :=
      match r1 with
      | "."%char :: r1' => read_digits r1' ip 0
      | _ => (ip, 0%Z, r1)
      end in
    if (ic + fc =? 0)%Z then nan
    else of_decimal neg m (read_exponent r2 - fc).

Definition parseFloat_string (s : string) : float :=
  let l := list_ascii_of_string s in
  match trim_start (length l) l with
  | "+"%char :: r => parse_unsigned false r
  | "-"%char :: r => parse_unsigned true r
  | r => parse_unsigned false r
  end.

(** [parseFloat(v)] parses [ToString(v)].  For a number the text is its
    shortest round-trip numeral, ["NaN"] or a signed ["Infinity"], so
    the number comes back, with [-0] (printed ["0"]) read as [0]. *)
Definition parseFloat (v : value) : float :=
  match v with
  | Undefined | Null | Boolean _ => nan
  | Number x => if PrimFloat.is_zero x then zero else x
  | Str s => parseFloat_string s
  end.

End Js.

(* ===================================================================== *)
(** * Valuation: calculateTotalBalance and the balance response *)
(* ===================================================================== *)

Module Valuation.

Import JsNumber Js.
Local Open Scope float_scope.

(** One element of [accountData.balances]. *)
Record Balance := mkBalance {
  asset : string;
  free : value;
  locked : value
}.

(** The price object built by [getCurrentPrices]: ticker symbol to the
    value the exchange sent as its price. *)
Abbreviation Prices := (gmap string value).

(** [prices[symbol]].  Every symbol looked up ends in ["USDT"], so no
    property inherited from [Object.prototype] is ever found. *)
Definition get (prices : Prices) (symbol : string) : value :=
  match prices !! symbol with
  | Some v => v
  | None => Undefined
  end.

(** The body of the [forEach] callback, as a function of the running
    [total]. *)
Definition addBalance (prices : Prices) (total : float) (balance : Balance)
  : float :=
  let free := parseFloat balance.(free) in
  let locked := parseFloat balance.(locked) in
  let totalAmount := free + locked in
  if gt0 totalAmount then
    if String.eqb balance.(asset) "USDT" then total + totalAmount
    else if String.eqb balance.(asset) "BUSD" then total + totalAmount
    else
      let symbol := (balance.(asset) ++ "USDT")%string in
      let price := get prices symbol in
      if truthy price then total + totalAmount * parseFloat price
      else total
  else total.

Definition calculateTotalBalance (balances : list Balance) (prices : Prices)
  : float :=
  fold_left (addBalance prices) balances 0.

(** ** The [/api/wallet/balance] handler, after both responses arrived *)

(** [balance => parseFloat(balance.free) > 0 || parseFloat(balance.locked) > 0] *)
Definition nonZero (balance : Balance) : bool :=
  gt0 (parseFloat balance.(free)) || gt0 (parseFloat balance.(locked)).

(** [b => ({ ...b, locked: '0' })] *)
Definition zeroLocked (b : Balance) : Balance :=
  {| asset := b.(asset); free := b.(free); locked := Str "0" |}.

(** One element of the [balances] array of the response. *)
Record AssetRow := mkAssetRow {
  row_asset : string;
  row_free : float;
  row_locked : float;
  row_total : float;
  usdtValue : float
}.

Definition assetRow (prices : Prices) (balance : Balance) : AssetRow :=
  {| row_asset := balance.(asset);
     row_free := parseFloat balance.(free);
     row_locked := parseFloat balance.(locked);
     row_total := parseFloat balance.(free) + parseFloat balance.(locked);
     usdtValue :=
       if String.eqb balance.(asset) "USDT" then
         parseFloat balance.(free) + parseFloat balance.(locked)
       else if truthy (get prices (balance.(asset) ++ "USDT")%string) then
         (parseFloat balance.(free) + parseFloat balance.(locked))
         * parseFloat (get prices (balance.(asset) ++ "USDT")%string)
       else 0 |}.

(** [Math.round(x * 100) / 100] *)
Definition round2 (x : float) : float := Math_round (x * 100) / 100.

(** The fields of [balanceData] computed from the balances and prices;
    [btcValue] is [None] when the property is not set. *)
Record BalanceData := mkBalanceData {
  total : float;
  available : float;
  inOrders : float;
  currency : string;
  balances : list AssetRow;
  btcValue : option numeral
}.

Definition balanceData (accountBalances : list Balance) (prices : Prices)
  : BalanceData :=
  let nonZeroBalances := List.filter nonZero accountBalances in
  let totalBalance := calculateTotalBalance nonZeroBalances prices in
  let availableBalance :=
    calculateTotalBalance (map zeroLocked nonZeroBalances) prices in
  let lockedBalance := totalBalance - availableBalance in
  let btcPrice := get prices "BTCUSDT" in
  {| total := round2 totalBalance;
     available := round2 availableBalance;
     inOrders := round2 lockedBalance;
     currency := "USDT";
     balances :=
       List.filter (fun b => gt0 b.(row_total)) (map (assetRow prices) nonZeroBalances);
     btcValue :=
       if truthy btcPrice then
         Some (toFixed 8 (totalBalance / parseFloat btcPrice))
       else None |}.

End Valuation.

(* ===================================================================== *)
(** * SHA-256 and HMAC (crypto.createHmac('sha256', key)) *)
(* ===================================================================== *)

(** Bytes are integers in [0, 256); 32-bit words are integers in
  [0, 2^32) with the wrap-around written out. *)

Module Sha256.

Local Open Scope Z_scope.

Definition wrap (x : Z) : Z := x mod 2 ^ 32.

Definition rotr (n x : Z) : Z :=
  wrap (Z.lor (Z.shiftr x n) (Z.shiftl x (32 - n))).

Definition Ch (x y z : Z) : Z :=
  Z.lxor (Z.land x y) (Z.land (Z.lxor x 0xffffffff) z).

Definition Maj (x y z : Z) : Z :=
  Z.lxor (Z.lxor (Z.land x y) (Z.land x z)) (Z.land y z).

Definition Sigma0 (x : Z) : Z := Z.lxor (Z.lxor (rotr 2 x) (rotr 13 x)) (rotr 22 x).
Definition Sigma1 (x : Z) : Z := Z.lxor (Z.lxor (rotr 6 x) (rotr 11 x)) (rotr 25 x).
Definition sigma0 (x : Z) : Z := Z.lxor (Z.lxor (rotr 7 x) (rotr 18 x)) (Z.shiftr x 3).
Definition sigma1 (x : Z) : Z := Z.lxor (Z.lxor (rotr 17 x) (rotr 19 x)) (Z.shiftr x 10).

(** The constants are defined as the standard defines them: the first 32
    bits of the fractional parts of the cube roots (for [K]) and of the
    square roots (for [H0]) of the first primes. *)

Definition is_prime (n : Z) : bool :=
  (1 <? n) && forallb (fun d => negb (n mod d =? 0) || (n <=? d))
                      (map Z.of_nat (seq 2 (Z.to_nat (Z.sqrt n)))).

Fixpoint primes_from (fuel count : nat) (n : Z) : list Z :=
  match fuel, count with
  | O, _ | _, O => []
  | S fuel', S count' =>
      if is_prime n then n :: primes_from fuel' count' (n + 1)
      else primes_from fuel' count (n + 1)
  end.

Definition first_primes (count : nat) : list Z := primes_from 400 count 2.

(** The largest [r] with [r^3 <= n], found bit by bit from bit [bits - 1]. *)
Definition cube_root (bits : nat) (n : Z) : Z :=
  fold_left
    (fun r i => let r' := r + 2 ^ Z.of_nat i in if r' * r' * r' <=? n then r' else r)
    (rev (seq 0 bits)) 0.

Definition K : list Z :=
  Eval vm_compute in map (fun p => wrap (cube_root 36 (p * 2 ^ 96))) (first_primes 64).

Definition H0 : list Z :=
  Eval vm_compute in map (fun p => wrap (Z.sqrt (p * 2 ^ 64))) (first_primes 8).

(** Big-endian bytes of [x], [n] of them. *)
Fixpoint be_bytes (n : nat) (x : Z) : list Z :=
  match n with
  | O => []
  | S n' => (Z.shiftr x (8 * Z.of_nat n')) mod 256 :: be_bytes n' x
  end.

Definition be_word (bs : list Z) : Z :=
  fold_left (fun acc b => acc * 256 + b) bs 0.

(** The message followed by the bit [1], zeros, and its length in bits
    as a 64-bit big-endian integer, filling a whole number of 64-byte
    blocks. *)
Definition pad (msg : list Z) : list Z :=
  let len := Z.of_nat (length msg) in
  let zeros := Z.to_nat ((55 - len) mod 64) in
  msg ++ 128 :: repeat 0 zeros ++ be_bytes 8 (8 * len).

Fixpoint chunks (fuel size : nat) (l : list Z) : list (list Z) :=
  match fuel, l with
  | O, _ | _, [] => []
  | S fuel', _ => firstn size l :: chunks fuel' size (skipn size l)
  end.

(** The 64 words of the message schedule, from a window of the last
    16 words. *)
Fixpoint schedule (n : nat) (window : list Z) : list Z :=
  match n with
  | O => []
  | S n' =>
      let w := wrap (sigma1 (nth 14 window 0) + nth 9 window 0
                     + sigma0 (nth 1 window 0) + nth 0 window 0) in
      w :: schedule n' (tl window ++ [w])
  end.

Definition message_schedule (block : list Z) : list Z :=
  let w16 := map be_word (chunks 16 4 block) in
  w16 ++ schedule 48 w16.

Record regs := mkRegs { ra : Z; rb : Z; rc : Z; rd : Z; re : Z; rf : Z; rg : Z; rh : Z }.

Definition round (r : regs) (kw : Z * Z) : regs :=
  let '(k, w) := kw in
  let t1 := wrap (r.(rh) + Sigma1 r.(re) + Ch r.(re) r.(rf) r.(rg) + k + w) in
  let t2 := wrap (Sigma0 r.(ra) + Maj r.(ra) r.(rb) r.(rc)) in
  mkRegs (wrap (t1 + t2)) r.(ra) r.(rb) r.(rc) (wrap (r.(rd) + t1)) r.(re) r.(rf) r.(rg).

Definition regs_of (h : list Z) : regs :=
  mkRegs (nth 0 h 0) (nth 1 h 0) (nth 2 h 0) (nth 3 h 0)
         (nth 4 h 0) (nth 5 h 0) (nth 6 h 0) (nth 7 h 0).

Definition regs_list (r : regs) : list Z :=
  [ r.(ra); r.(rb); r.(rc); r.(rd); r.(re); r.(rf); r.(rg); r.(rh) ].

Definition compress (h : list Z) (block : list Z) : list Z :=
  let r := fold_left round (combine K (message_schedule block)) (regs_of h) in
  map (fun p => wrap (fst p + snd p)) (combine h (regs_list r)).

(** The 32-byte digest. *)
Definition sha256 (msg : list Z) : list Z :=
  let p := pad msg in
  let h := fold_left compress (chunks (length p) 64 p) H0 in
  flat_map (be_bytes 4) h.

(** RFC 2104 with a 64-byte block. *)
Definition hmac_sha256 (key msg : list Z) : list Z :=
  let k := if (64 <? Z.of_nat (length key)) then sha256 key else key in
  let k := k ++ repeat 0 (64 - length k) in
  sha256 (map (Z.lxor 0x5c) k ++ sha256 (map (Z.lxor 0x36) k ++ msg)).

Definition hex_digit (d : Z) : ascii :=
  ascii_of_N (Z.to_N (if d <? 10 then 48 + d else 87 + d)).

(** [digest('hex')]: two lowercase hexadecimal digits per byte. *)
Definition hex (bs : list Z) : string :=
  string_of_list_ascii (flat_map (fun b => [hex_digit (b / 16); hex_digit (b mod 16)]) bs).

Definition bytes_of_string (s : string) : list Z :=
  map (fun c => Z.of_N (N_of_ascii c)) (list_ascii_of_string s).

End Sha256.

(* ===================================================================== *)
(** * Exceptions and handler results *)
(* ===================================================================== *)

Module Exn.

Inductive exn :=
| Error (message : string)          (** [throw new Error(message)] *)
| TypeError (code : string).        (** raised by the runtime or by [crypto] *)

Inductive result (A : Type) :=
| Ok (a : A)
| Throw (e : exn).

Arguments Ok {A} a.
Arguments Throw {A} e.

(** [!!v] and [!v] on a variable that holds a string or [undefined]. *)
Definition configured (v : option string) : bool :=
  match v with
  | Some s => negb (String.eqb s "")
  | None => false
  end.

(** [API_KEY] and [SECRET_KEY], read from the environment when the
    module is loaded. *)
Record config := mkConfig {
  API_KEY : option string;
  SECRET_KEY : option string
}.

End Exn.

(* ===================================================================== *)
(** * The request signer *)
(* ===================================================================== *)

Module Signer.

Import JsNumber Exn.

(** ** Parameter objects

    An object is the list of its own enumerable properties in property
    order, each key once.  Request parameters have no array-index keys
    (which JavaScript would enumerate first), so a property written
    under a new key goes last.  A property value is a string or an
    integer-valued number (the timestamp), printed in decimal. *)
Inductive pvalue :=
| PStr (s : string)
| PNum (n : Z).

Abbreviation object := (list (string * pvalue)).

Fixpoint get (k : string) (o : object) : option pvalue :=
  match o with
  | [] => None
  | (k', v) :: o' => if String.eqb k' k then Some v else get k o'
  end.

(** [o[k] = v]: an existing property keeps its place, a new one goes
    last. *)
Fixpoint set (k : string) (v : pvalue) (o : object) : object :=
  match o with
  | [] => [(k, v)]
  | (k', v') :: o' =>
      if String.eqb k' k then (k, v) :: o' else (k', v') :: set k v o'
  end.

(** [{ ...src }] continued from the properties [dst] already written. *)
Definition spread (src dst : object) : object :=
  fold_left (fun o kv => set (fst kv) (snd kv) o) src dst.


Definition ToString (v : pvalue) : string :=
  match v with
  | PStr s => s
  | PNum n => string_of_Z n
  end.

(** ** URLSearchParams serialisation (application/x-www-form-urlencoded) *)

Definition unreserved (c : ascii) : bool :=
  let n := N_of_ascii c in
  (((48 <=? n) && (n <=? 57)) || ((65 <=? n) && (n <=? 90))
   || ((97 <=? n) && (n <=? 122))
   || (n =? 42) || (n =? 45) || (n =? 46) || (n =? 95))%N.

Definition HEX_digit (d : N) : ascii :=
  ascii_of_N (if (d <? 10)%N then 48 + d else 55 + d)%N.

Definition encode_byte (c : ascii) : list ascii :=
  if unreserved c then [c]
  else if Ascii.eqb c " " then ["+"%char]
  else
    let n := N_of_ascii c in
    ["%"%char; HEX_digit (n / 16); HEX_digit (n mod 16)].

Definition urlencode (s : string) : string :=
  string_of_list_ascii (flat_map encode_byte (list_ascii_of_string s)).

(** [new URLSearchParams(o).toString()] *)
Definition URLSearchParams_toString (o : object) : string :=
  String.concat "&"
    (map (fun kv => urlencode (fst kv) ++ "=" ++ urlencode (ToString (snd kv)))%string o).

(** ** Effects: the clock and the order of the steps *)

Inductive event :=
| DateNow (t : Z)                       (** [Date.now()] returned [t] *)
| Serialized (queryString : string)     (** the query string was built *)
| HmacDigest (key data : string).       (** an HMAC was computed *)

Record world := mkWorld {
  clock : Z;                (** milliseconds since the epoch *)
  trace : list event        (** the steps taken so far, oldest first *)
}.

Definition M (A : Type) : Type := world -> result A * world.

Definition ret {A} (a : A) : M A := fun w => (Ok a, w).
Definition throw {A} (e : exn) : M A := fun w => (Throw e, w).
Definition bind {A B} (m : M A) (k : A -> M B) : M B :=
  fun w =>
    match m w with
    | (Ok a, w') => k a w'
    | (Throw e, w') => (Throw e, w')
    end.
Definition tell (ev : event) : M unit :=
  fun w => (Ok tt, {| clock := w.(clock); trace := w.(trace) ++ [ev] |}).

Notation "'let*' x ':=' m 'in' k" := (bind m (fun x => k))
  (at level 10, x name, m at level 100, k at level 200).

Definition Date_now : M Z :=
  fun w => (Ok w.(clock),
            {| clock := w.(clock); trace := w.(trace) ++ [DateNow w.(clock)] |}).

Definition serialize (o : object) : M string :=
  let qs := URLSearchParams_toString o in
  let* _ := tell (Serialized qs) in ret qs.

(** [crypto.createHmac('sha256', key).update(data).digest('hex')];
    [createHmac] rejects a key that is [undefined]. *)
Definition createHmac_digest (key : option string) (data : string) : M string :=
  match key with
  | None => throw (TypeError "ERR_INVALID_ARG_TYPE")
  | Some k =>
      let* _ := tell (HmacDigest k data) in
      ret (Sha256.hex (Sha256.hmac_sha256 (Sha256.bytes_of_string k)
                                          (Sha256.bytes_of_string data)))
  end.

(** The hexadecimal HMAC-SHA256 of the serialised [query] under [secret]. *)
Definition signature_of (secret : string) (query : object) : string :=
  Sha256.hex (Sha256.hmac_sha256 (Sha256.bytes_of_string secret)
                (Sha256.bytes_of_string (URLSearchParams_toString query))).

(** ** The functions of the source *)

Definition generateSignature (cfg : config) (queryString : string) : M string :=
  if negb (configured cfg.(SECRET_KEY)) then
    throw (Error "SECRET_KEY is not configured")
  else createHmac_digest cfg.(SECRET_KEY) queryString.

Definition createSignedParams (cfg : config) (params : object) : M object :=
  let* timestamp := Date_now in
  let* queryString :=
    serialize (set "timestamp" (PNum timestamp) (spread params [])) in
  let* signature := generateSignature cfg queryString in
  ret (set "signature" (PStr signature)
         (set "timestamp" (PNum timestamp) (spread params []))).

(** The signer of the earn-balance server. *)
Definition sign (cfg : config) (params : object) : M object :=
  let* timestamp := Date_now in
  let* queryString :=
    serialize (set "timestamp" (PNum timestamp) (spread params [])) in
  let* signature := createHmac_digest cfg.(SECRET_KEY) queryString in
  ret (set "signature" (PStr signature)
         (set "timestamp" (PNum timestamp) (spread params []))).

End Signer.

(* ===================================================================== *)
(** * The health check *)
(* ===================================================================== *)

Module Health.

Import JsNumber Exn.
Local Open Scope Z_scope.

(** [process.env]: variable names and values, in enumeration order. *)
Abbreviation environment := (list (string * string)).

Fixpoint getenv (name : string) (env : environment) : option string :=
  match env with
  | [] => None
  | (k, v) :: env' => if String.eqb k name then Some v else getenv name env'
  end.

(** The constants of the module, as [dotenv] and the process left them. *)
Definition load (env : environment) : config :=
  {| API_KEY := getenv "BINANCE_API_KEY" env;
     SECRET_KEY := getenv "BINANCE_SECRET_KEY" env |}.

(** ** new Date().toISOString() *)

Definition pad0 (width : nat) (n : Z) : string :=
  let ds := decimal_digits n in
  string_of_list_ascii (repeat "0"%char (width - length ds) ++ ds).

(** Year, month and day of the proleptic Gregorian calendar for a day
    number counted from 1970-01-01. *)
Definition civil_from_days (days : Z) : Z * Z * Z :=
  let z := days + 719468 in
  let era := z / 146097 in
  let doe := z - era * 146097 in
  let yoe := (doe - doe / 1460 + doe / 36524 - doe / 146096) / 365 in
  let doy := doe - (365 * yoe + yoe / 4 - yoe / 100) in
  let mp := (5 * doy + 2) / 153 in
  let d := doy - (153 * mp + 2) / 5 + 1 in
  let m := if mp <? 10 then mp + 3 else mp - 9 in
  let y := yoe + era * 400 + (if m <=? 2 then 1 else 0) in
  (y, m, d).

Definition toISOString (t : Z) : string :=
  let '(y, m, d) := civil_from_days (t / 86400000) in
  let ms := t mod 86400000 in
  let year :=
    if (0 <=? y) && (y <=? 9999) then pad0 4 y
    else if y <? 0 then ("-" ++ pad0 6 (- y))%string
    else ("+" ++ pad0 6 y)%string in
  (year ++ "-" ++ pad0 2 m ++ "-" ++ pad0 2 d ++ "T"
   ++ pad0 2 (ms / 3600000) ++ ":" ++ pad0 2 (ms / 60000 mod 60) ++ ":"
   ++ pad0 2 (ms / 1000 mod 60) ++ "." ++ pad0 3 (ms mod 1000) ++ "Z")%string.

(** ** Responses *)

Record response (A : Type) := mkResponse {
  statusCode : Z;
  body : A
}.
Arguments mkResponse {A} statusCode body.
Arguments statusCode {A} r.
Arguments body {A} r.

(** [res.json(body)] on a response whose status was not set. *)
Definition res_json {A} (b : A) : response A :=
  {| statusCode := 200; body := b |}.

Record HealthBody := mkHealthBody {
  status : string;
  timestamp : string;
  service : string;
  apiKeyConfigured : bool;
  secretKeyConfigured : bool
}.

(** The handler of the first server: it reads the module constants. *)
Definition health (cfg : config) (now : Z) : result (response HealthBody) :=
  Ok (res_json
        {| status := "ok";
           timestamp := toISOString now;
           service := "Binance Wallet Balance API";
           apiKeyConfigured := configured cfg.(API_KEY);
           secretKeyConfigured := configured cfg.(SECRET_KEY) |}).

(** ** The variant with debugging output *)

(** [s.length] and [s.substring(0, 8)]; on [undefined] a property
    access raises a TypeError.  Lengths count the bytes of the model's
    strings, which for an ASCII key are its characters. *)
Definition length_of (v : option string) : result Z :=
  match v with
  | Some s => Ok (Z.of_nat (String.length s))
  | None => Throw (TypeError "Cannot read properties of undefined")
  end.

Definition substring_of (n : nat) (v : option string) : result string :=
  match v with
  | Some s => Ok (String.substring 0 n s)
  | None => Throw (TypeError "Cannot read properties of undefined")
  end.

Definition bind {A B} (m : result A) (k : A -> result B) : result B :=
  match m with
  | Ok a => k a
  | Throw e => Throw e
  end.

Fixpoint includes (fuel : nat) (needle hay : string) : bool :=
  String.prefix needle hay ||
  match fuel, hay with
  | S fuel', String _ hay' => includes fuel' needle hay'
  | _, _ => false
  end.

Record HealthDebug := mkHealthDebug {
  apiKeyLength : Z;
  secretKeyLength : Z;
  apiKeyStart : string;
  allEnvVars : list string
}.

Record HealthBodyDebug := mkHealthBodyDebug {
  d_status : string;
  d_timestamp : string;
  d_service : string;
  d_apiKeyConfigured : bool;
  d_secretKeyConfigured : bool;
  d_environment : string;
  debug : HealthDebug
}.

Definition health_debug (env : environment) (now : Z)
  : result (response HealthBodyDebug) :=
  let apiKey := getenv "BINANCE_API_KEY" env in
  let secretKey := getenv "BINANCE_SECRET_KEY" env in
  let apiKeyExists := configured apiKey in
  let secretKeyExists := configured secretKey in
  bind (if configured apiKey then length_of apiKey else Ok 0) (fun apiKeyLength =>
  bind (if configured secretKey then length_of secretKey else Ok 0) (fun secretKeyLength =>
  bind (if configured apiKey then
          bind (substring_of 8 apiKey) (fun s => Ok (s ++ "...")%string)
        else Ok "undefined"%string) (fun apiKeyStart =>
  Ok (res_json
        {| d_status := "ok";
           d_timestamp := toISOString now;
           d_service := "Binance Wallet Balance API";
           d_apiKeyConfigured := apiKeyExists;
           d_secretKeyConfigured := secretKeyExists;
           d_environment :=
             (if configured (getenv "NODE_ENV" env)
              then default ""%string (getenv "NODE_ENV" env)
              else "development"%string);
           debug :=
             {| apiKeyLength := apiKeyLength;
                secretKeyLength := secretKeyLength;
                apiKeyStart := apiKeyStart;
                allEnvVars :=
                  List.filter (fun key => includes (String.length key) "BINANCE" key)
                         (map fst env) |} |})))).

End Health.

(* ===================================================================== *)
(** * The valuation rule, stated separately from the loop *)
(* ===================================================================== *)

Module ValuationSpec.

Import JsNumber Js Valuation.
Local Open Scope float_scope.

(** The sum of a list, added left to right from [0] as the loop does. *)
Definition sum (xs : list float) : float := fold_left PrimFloat.add xs 0.

(** [free + locked] of one entry. *)
Definition amount (b : Balance) : float :=
  parseFloat b.(free) + parseFloat b.(locked).

Definition counted (b : Balance) : bool := gt0 (amount b).

(** The contribution of an entry in the words of the specification:
    the amount itself for USDT and BUSD, otherwise the amount times the
    price found under [asset + "USDT"], and [0] when the table has no
    such entry. *)
Definition claimed_contribution (prices : Prices) (b : Balance) : float :=
  if String.eqb b.(asset) "USDT" then amount b
  else if String.eqb b.(asset) "BUSD" then amount b
  else
    match prices !! (b.(asset) ++ "USDT")%string with
    | Some price => amount b * parseFloat price
    | None => 0
    end.

Definition claimed_valuation (bs : list Balance) (prices : Prices) : float :=
  sum (map (claimed_contribution prices) (List.filter counted bs)).

(** The same rule with the test the code makes on the price: an entry
    is used when it is truthy. *)
Definition quoteValue (prices : Prices) (asset : string) (amt : float) : float :=
  if String.eqb asset "USDT" then amt
  else if String.eqb asset "BUSD" then amt
  else if truthy (get prices (asset ++ "USDT")%string)
       then amt * parseFloat (get prices (asset ++ "USDT")%string)
       else 0.

Definition contribution (prices : Prices) (b : Balance) : float :=
  quoteValue prices b.(asset) (amount b).

Definition valuation (bs : list Balance) (prices : Prices) : float :=
  sum (map (contribution prices) (List.filter counted bs)).


(** Both amounts of the entry parse as numbers. *)
Definition wellFormed (b : Balance) : bool :=
  negb (is_nan (parseFloat b.(free))) && negb (is_nan (parseFloat b.(locked))).





End ValuationSpec.

(* ===================================================================== *)
(** * Scenarios of the specification *)
(* ===================================================================== *)

Module Scenario.

Import JsNumber Js Valuation Exn Signer.

(** [[{BTC, free:0.5, locked:0.1}, {USDT, free:100, locked:0}]] *)
Definition btc_usdt_balances : list Balance :=
  [ {| asset := "BTC"; free := Number (lit 5 (-1)); locked := Number (lit 1 (-1)) |};
    {| asset := "USDT"; free := Number (lit 100 0); locked := Number (lit 0 0) |} ].

(** [{"BTCUSDT": "30000"}] *)
Definition btc_prices : Prices := {[ "BTCUSDT"%string := Str "30000" ]}.

(** [[{XYZ, free:10, locked:0}]] *)
Definition xyz_balances : list Balance :=
  [ {| asset := "XYZ"; free := Number (lit 10 0); locked := Number (lit 0 0) |} ].

(** One unit of an asset, as the exchange sends it. *)
Definition one_xyz : list Balance :=
  [ {| asset := "XYZ"; free := Str "1"; locked := Str "0" |} ].



Definition huge_xyz : list Balance :=
  [ {| asset := "XYZ"; free := Str "1e308"; locked := Str "1e308" |} ].

Definition no_credentials : config := {| API_KEY := None; SECRET_KEY := None |}.

Definition test_credentials : config :=
  {| API_KEY := Some "vmPUZE6mv9SD5VNHk4HlWFsOr6aKE2zvsw0MuIgwCIPy6utIco14y7Ju91duEh8A"%string;
     SECRET_KEY := Some "NhqPtmdSJYdKjVHjA7PZj4Mge3R5YNiP1e3UZjInClVN65XAbvqqM6A7H5fATj0j"%string |}.

Definition at_time (t : Z) : world := {| clock := t; trace := [] |}.

(** The [signature] property of the parameters signed with the test
    credentials at a fixed time. *)
Definition signature_at (params : object) : option pvalue :=
  match fst (createSignedParams test_credentials params (at_time 1700000000000)) with
  | Ok signed => get "signature" signed
  | Throw _ => None
  end.

End Scenario.

(* ===================================================================== *)
(** * The route handlers *)
(* ===================================================================== *)

Module Handlers.

Import JsNumber Js Valuation Exn Signer Health.

(** ** The exchange *)

(** What an [axios.get] gives: the decoded body, or a rejection carrying
    [error.response?.status], [error.response?.data?.msg] and
    [error.message]. *)
Inductive reply (A : Type) :=
| Reply (data : A)
| Rejected (status : option Z) (msg : value) (message : string).

Arguments Reply {A} data.
Arguments Rejected {A} status msg message.

(** What a [catch (error)] receives: an exception of the handler's own
    code, or a rejection of the exchange. *)
Inductive thrown :=
| Native (e : exn)
| Upstream (status : option Z) (msg : value) (message : string).

(** [error.response?.status], [error.response?.data?.msg] and
    [error.message]. *)
Definition status_of (t : thrown) : option Z :=
  match t with
  | Native _ => None
  | Upstream status _ _ => status
  end.

Definition msg_of (t : thrown) : value :=
  match t with
  | Native _ => Undefined
  | Upstream _ msg _ => msg
  end.

Definition message_of (t : thrown) : string :=
  match t with
  | Native (Error message) => message
  | Native (TypeError code) => code
  | Upstream _ _ message => message
  end.

(** One element of the ticker list. *)
Record Ticker := mkTicker {
  symbol : string;
  price : value
}.

(** [prices[ticker.symbol] = ticker.price].  The name [__proto__] reaches
    the prototype setter and gives the object no property. *)
Definition setPrice (prices : Prices) (ticker : Ticker) : Prices :=
  if String.eqb ticker.(symbol) "__proto__" then prices
  else <[ ticker.(symbol) := ticker.(price) ]> prices.

(** The price table of a ticker response; a failed request gives the
    empty table. *)
Definition getCurrentPrices (response : reply (list Ticker)) : Prices :=
  match response with
  | Reply data => fold_left setPrice data ∅
  | Rejected _ _ _ => ∅
  end.

(** The body of [/api/v3/account], with the fields the handlers read. *)
Record AccountData := mkAccountData {
  acc_balances : option (list Balance);   (** [None]: no [balances] property *)
  updateTime : value;
  permissions : list string;
  canTrade : value;
  canWithdraw : value;
  canDeposit : value;
  makerCommission : float;
  takerCommission : float;
  buyerCommission : float;
  sellerCommission : float
}.

(** The body of [/sapi/v1/simple-earn/account]. *)
Record EarnData := mkEarnData {
  totalAmountInUSDT : value;
  totalFlexibleAmountInUSDT : value;
  totalLockedInUSDT : value
}.

(** The exchange as the handlers see it: the answer to each request, the
    signed ones as a function of the parameters sent, and the time in
    milliseconds that passes until a signed request is answered. *)
Record exchange := mkExchange {
  ticker_price : reply (list Ticker);
  account : object -> reply AccountData;
  openOrders : object -> reply (list value);
  simple_earn : object -> reply EarnData;
  elapsed : Z
}.

(** The world when the awaited answer has arrived. *)
Definition later (ex : exchange) (w : world) : world :=
  {| clock := (w.(clock) + ex.(elapsed))%Z; trace := w.(trace) |}.

(** The requests a handler sent, oldest first; a signed request carries
    the [X-MBX-APIKEY] header and its parameters. *)
Inductive request :=
| GetTickerPrice
| GetAccount (apiKey : option string) (params : object)
| GetOpenOrders (apiKey : option string) (params : object)
| GetSimpleEarn (apiKey : option string) (params : object).

Record outcome (A : Type) := mkOutcome {
  sent : Health.response A;     (** the response sent *)
  after : world;                (** the clock and the signer's steps *)
  requests : list request
}.
Arguments mkOutcome {A} sent after requests.
Arguments sent {A} o.
Arguments after {A} o.
Arguments requests {A} o.

(** [res.status(code).json(body)] *)
Definition res_status_json {A} (code : Z) (b : A) : Health.response A :=
  {| statusCode := code; body := b |}.

(** ** GET /api/wallet/balance *)

Inductive BalanceBody :=
| BalanceReport (data : BalanceData) (timestamp : string)
                (exchangeTimestamp : value) (perms : list string)
                (trade withdraw deposit : value)
| CredentialsNotConfigured (apiKey secretKey : bool)
| ErrorText (error : string)
| ErrorMsg (error : value)
| ErrorDetails (error details : string).

(** The [catch] block of the balance handler. *)
Definition balanceError (error : thrown) : Health.response BalanceBody :=
  if decide (status_of error = Some 401%Z) then
    res_status_json 401 (ErrorText "Invalid API key or signature")
  else if decide (status_of error = Some 403%Z) then
    res_status_json 403 (ErrorText "API key does not have required permissions")
  else if truthy (msg_of error) then
    res_status_json 400 (ErrorMsg (msg_of error))
  else
    res_status_json 500
      (ErrorDetails "Failed to fetch wallet balance from Binance" (message_of error)).

Definition walletBalance (cfg : config) (ex : exchange) (w : world)
  : outcome BalanceBody :=
  if negb (configured cfg.(API_KEY)) || negb (configured cfg.(SECRET_KEY)) then
    {| sent := res_status_json 500
                 (CredentialsNotConfigured (configured cfg.(API_KEY))
                                           (configured cfg.(SECRET_KEY)));
       after := w; requests := [] |}
  else
    let prices := getCurrentPrices ex.(ticker_price) in
    match createSignedParams cfg [] w with
    | (Throw e, w') =>
        {| sent := balanceError (Native e); after := w';
           requests := [GetTickerPrice] |}
    | (Ok accountParams, w') =>
        let reqs := [GetTickerPrice; GetAccount cfg.(API_KEY) accountParams] in
        let w'' := later ex w' in
        match ex.(account) accountParams with
        | Rejected status msg message =>
            {| sent := balanceError (Upstream status msg message);
               after := w''; requests := reqs |}
        | Reply accountData =>
            match accountData.(acc_balances) with
            | None =>
                {| sent := balanceError
                             (Native (TypeError "Cannot read properties of undefined (reading filter)"));
                   after := w''; requests := reqs |}
            | Some balances =>
                {| sent := res_json
                             (BalanceReport (balanceData balances prices)
                                (toISOString w''.(clock))
                                accountData.(updateTime) accountData.(permissions)
                                accountData.(canTrade) accountData.(canWithdraw)
                                accountData.(canDeposit));
                   after := w''; requests := reqs |}
            end
        end
    end.

(** ** GET /api/wallet/orders *)

Inductive OrdersBody :=
| OrdersReport (orders : list value) (count : Z)
| OrdersError (error : string).

Definition walletOrders (cfg : config) (ex : exchange) (w : world)
  : outcome OrdersBody :=
  match createSignedParams cfg [] w with
  | (Throw e, w') =>
      {| sent := res_status_json 500 (OrdersError "Failed to fetch open orders");
         after := w'; requests := [] |}
  | (Ok ordersParams, w') =>
      let reqs := [GetOpenOrders cfg.(API_KEY) ordersParams] in
      match ex.(openOrders) ordersParams with
      | Rejected _ _ _ =>
          {| sent := res_status_json 500 (OrdersError "Failed to fetch open orders");
             after := later ex w'; requests := reqs |}
      | Reply data =>
          {| sent := res_json (OrdersReport data (Z.of_nat (length data)));
             after := later ex w'; requests := reqs |}
      end
  end.

(** ** GET /api/wallet/fees *)

Inductive FeesBody :=
| FeesReport (maker taker buyer seller : float)
| FeesError (error : string).

Definition walletFees (cfg : config) (ex : exchange) (w : world)
  : outcome FeesBody :=
  match createSignedParams cfg [] w with
  | (Throw e, w') =>
      {| sent := res_status_json 500 (FeesError "Failed to fetch trading fees");
         after := w'; requests := [] |}
  | (Ok feesParams, w') =>
      let reqs := [GetAccount cfg.(API_KEY) feesParams] in
      match ex.(account) feesParams with
      | Rejected _ _ _ =>
          {| sent := res_status_json 500 (FeesError "Failed to fetch trading fees");
             after := later ex w'; requests := reqs |}
      | Reply data =>
          {| sent := res_json
                       (FeesReport (data.(makerCommission) / 10000)
                                   (data.(takerCommission) / 10000)
                                   (data.(buyerCommission) / 10000)
                                   (data.(sellerCommission) / 10000));
             after := later ex w'; requests := reqs |}
      end
  end.

(** A number of a JSON body as the arithmetic of the receiving page reads
    it: [NaN] and the infinities are sent as [null], which counts as [0],
    and [-0] is sent as [0]; every other number arrives unchanged. *)
Definition json_number (x : float) : float :=
  if PrimFloat.is_finite x && negb (PrimFloat.is_zero x) then x else 0.

(** The digits of [(data.takerCommission * 100).toFixed(3) + '%'], which
    the dashboard shows followed by the percent sign, from the number
    the fees route sent. *)
Definition feesInfo (takerCommission : float) : numeral :=
  toFixed 3 (json_number takerCommission * 100).

(** ** GET /earn *)

Inductive EarnBody :=
| EarnReport (total flexible locked : value) (timestamp : string)
| EarnErrorText (error : string)
| EarnErrorMsg (error : value).

Definition earn (cfg : config) (ex : exchange) (w : world) : outcome EarnBody :=
  if negb (configured cfg.(API_KEY)) || negb (configured cfg.(SECRET_KEY)) then
    {| sent := res_json (EarnErrorText "API keys not set");
       after := w; requests := [] |}
  else
    match sign cfg [] w with
    | (Throw e, w') =>
        {| sent := res_json (EarnErrorText (message_of (Native e)));
           after := w'; requests := [] |}
    | (Ok params, w') =>
        let reqs := [GetSimpleEarn cfg.(API_KEY) params] in
        let w'' := later ex w' in
        match ex.(simple_earn) params with
        | Rejected _ msg message =>
            {| sent := res_json (if truthy msg then EarnErrorMsg msg
                                 else EarnErrorText message);
               after := w''; requests := reqs |}
        | Reply data =>
            {| sent := res_json
                         (EarnReport data.(totalAmountInUSDT)
                                     data.(totalFlexibleAmountInUSDT)
                                     data.(totalLockedInUSDT)
                                     (toISOString w''.(clock)));
               after := w''; requests := reqs |}
        end
    end.

End Handlers.

(* ===================================================================== *)
(** * The dashboard page: the asset list *)
(* ===================================================================== *)

Module Dashboard.

Import JsNumber Js Valuation Handlers.
Local Open Scope float_scope.

Section Sort.

Context {A : Type} (comparefn : A -> A -> float).

(** [x], the later element, goes before the first element that the
    comparison function puts after it: one for which [comparefn y x] is
    positive.  A result that is zero or NaN leaves the two in their
    order. *)
Fixpoint insert (x : A) (sorted : list A) : list A :=
  match sorted with
  | [] => [x]
  | y :: rest =>
      if 0 <? comparefn y x then x :: sorted else y :: insert x rest
  end.

(** [Array.prototype.sort(comparefn)].  The method is stable, and for a
    consistent comparison function its result is determined: the
    elements ordered by [comparefn], those it does not tell apart in
    their original order.  That list is built here by insertion. *)
Definition sort (l : list A) : list A :=
  fold_left (fun sorted x => insert x sorted) l [].

End Sort.

(** [significantAssets] of [displayAssets], on the rows of the balance
    response; the page reads each [usdtValue] from the JSON body. *)
Definition significantAssets (balances : list AssetRow) : list AssetRow :=
  firstn 8
    (sort (fun a b => json_number b.(usdtValue) - json_number a.(usdtValue))
       (List.filter (fun asset => 1 <? json_number asset.(usdtValue)) balances)).

End Dashboard.

(* ===================================================================== *)
(** * What the routes are compared with *)
(* ===================================================================== *)

Module HandlersSpec.

Import JsNumber Js Valuation ValuationSpec Exn Signer Health Handlers.
Local Open Scope string_scope.
Local Open Scope list_scope.

(** The price of the last ticker of the list that carries [symbol]. *)
Definition lastPrice (data : list Ticker) (symbol : string) : option value :=
  option_map price
    (find (fun t => String.eqb t.(Handlers.symbol) symbol) (rev data)).

(** The assets the valuation takes at par. *)
Definition pegged (b : Balance) : bool :=
  String.eqb b.(asset) "USDT" || String.eqb b.(asset) "BUSD".

(** The parameters of a request signed at time [t] with no parameter of
    its own. *)
Definition signedParams (secret : string) (t : Z) : object :=
  [ ("timestamp", PNum t);
    ("signature", PStr (signature_of secret [("timestamp", PNum t)])) ].

(** A request that may be sent: the public ticker request, or a signed
    request carrying the configured key and, under the configured
    non-empty secret, the timestamp [t] and its signature. *)
Definition well_signed (cfg : config) (t : Z) (r : request) : Prop :=
  match r with
  | GetTickerPrice => True
  | GetAccount k p | GetOpenOrders k p | GetSimpleEarn k p =>
      k = cfg.(API_KEY)
      /\ exists secret,
           cfg.(SECRET_KEY) = Some secret /\ secret <> ""
           /\ p = signedParams secret t
  end.

(** The dashboard shows the commission [c], in units of 1/10000, as
    [c / 100] with three fractional digits. *)
Definition fees_shown_exactly (c : Z) : bool :=
  match feesInfo (lit c 0 / 10000)%float with
  | Text s => String.eqb s (fixed_digits 3 (10 * c))
  | Exponential _ => false
  end.

Definition is_lower_hex (c : ascii) : bool :=
  let n := N_of_ascii c in
  (((48 <=? n) && (n <=? 57)) || ((97 <=? n) && (n <=? 102)))%N.

(** Every character is an ASCII character: the bytes of the string are
    then its UTF-16 code units, and [String.length] is its [length]. *)
Definition is_ascii (s : string) : bool :=
  forallb (fun c => (N_of_ascii c <? 128)%N) (list_ascii_of_string s).

End HandlersSpec.

(* ===================================================================== *)
(** * Reading a query string back *)
(* ===================================================================== *)

Module UrlSpec.

Import Signer.

(** The value of a hexadecimal digit, upper or lower case. *)
Definition hex_value (c : ascii) : N :=
  let n := N_of_ascii c in
  (if n <? 58 then n - 48 else if n <? 71 then n - 55 else n - 87)%N.

(** Percent-decoding with [+] read as a space: the inverse the receiving
    side applies to a serialised name or value. *)
Fixpoint decode (l : list ascii) : list ascii :=
  match l with
  | [] => []
  | c :: rest =>
      if Ascii.eqb c "+" then " "%char :: decode rest
      else if Ascii.eqb c "%" then
        match rest with
        | h :: lo :: rest' =>
            ascii_of_N (16 * hex_value h + hex_value lo) :: decode rest'
        | _ => c :: decode rest
        end
      else c :: decode rest
  end.

(** The part of [s] before the first [c] and the part after it. *)
Fixpoint split_at (c : ascii) (s : string) : option (string * string) :=
  match s with
  | EmptyString => None
  | String a s' =>
      if Ascii.eqb a c then Some (EmptyString, s')
      else match split_at c s' with
           | Some (l, r) => Some (String a l, r)
           | None => None
           end
  end.

Fixpoint occurs (c : ascii) (s : string) : bool :=
  match s with
  | EmptyString => false
  | String a s' => Ascii.eqb a c || occurs c s'
  end.

(** What a property contributes to the query string: its name and the
    text of its value. *)
Definition entry_text (kv : string * pvalue) : string * string :=
  (fst kv, ToString (snd kv)).

(** One serialised property. *)
Definition pair_text (kv : string * pvalue) : string :=
  (urlencode (fst kv) ++ "=" ++ urlencode (ToString (snd kv)))%string.

End UrlSpec.

(* ===================================================================== *)
(** * The order of the positive numbers *)
(* ===================================================================== *)

Module FloatOrder.

Import JsNumber.
Local Open Scope Z_scope.

(** The positive finite numbers. *)
Definition pos_finite (x : float) : bool :=
  match Prim2SF x with
  | S754_finite false _ _ => true
  | _ => false
  end.

(** The place of a positive finite number among them: the exponent
    first, then the mantissa, which is below [2^53]. *)
Definition rank (x : float) : Z :=
  match Prim2SF x with
  | S754_finite false m e => e * 2 ^ 53 + Z.pos m
  | _ => 0
  end.

(** The numbers for which [x < 0] is false: the zeros, the positive
    numbers and NaN. *)
Definition nonneg_sf (x : spec_float) : bool :=
  match x with
  | S754_infinity true | S754_finite true _ _ => false
  | _ => true
  end.

(** The greater key first. *)
Definition descending {A : Type} (key : A -> Z) (a b : A) : Prop :=
  key b <= key a.

(** A row the page counts as significant: worth more than 1, a finite
    amount. *)
Definition significant (r : Valuation.AssetRow) : Prop :=
  (1 <? r.(Valuation.usdtValue))%float = true
  /\ PrimFloat.is_finite r.(Valuation.usdtValue) = true.

End FloatOrder.

(* ===================================================================== *)
(** * The library models on known values *)
(* ===================================================================== *)

Module ModelChecks.

Import JsNumber Js Sha256 Signer Health.
Local Open Scope string_scope.

(** FIPS 180-4, one-block message. *)
Example sha256_abc :
  hex (sha256 (bytes_of_string "abc"))
  = "ba7816bf8f01cfea414140de5dae2223b00361a396177a9cb410ff61f20015ad".
Proof. vm_compute. reflexivity. Qed.

(** FIPS 180-4, two-block message. *)
Example sha256_two_blocks :
  hex (sha256 (bytes_of_string
                 "abcdbcdecdefdefgefghfghighijhijkijkljklmklmnlmnomnopnopq"))
  = "248d6a61d20638b8e5c026930c3e6039a33ce45964ff2167f6ecedd419db06c1".
Proof. vm_compute. reflexivity. Qed.

(** RFC 4231, test case 2. *)
Example hmac_rfc4231_case2 :
  hex (hmac_sha256 (bytes_of_string "Jefe")
                   (bytes_of_string "what do ya want for nothing?"))
  = "5bdcc146bf60754e6a042426089575c75a003f089d2739839dec58b964ec3843".
Proof. vm_compute. reflexivity. Qed.

(** RFC 4231, test case 6: a key longer than the block is hashed first. *)
Example hmac_rfc4231_case6 :
  hex (hmac_sha256 (repeat 170%Z 131)
         (bytes_of_string "Test Using Larger Than Block-Size Key - Hash Key First"))
  = "60e431591ee0b67f0d8a26aacbf5b77f8e0bc6213728c5140546040f0ee37f54".
Proof. vm_compute. reflexivity. Qed.

(** The signed-endpoint example of the exchange's API documentation. *)
Example exchange_signature_example :
  signature_of "NhqPtmdSJYdKjVHjA7PZj4Mge3R5YNiP1e3UZjInClVN65XAbvqqM6A7H5fATj0j"
    [ ("symbol", PStr "LTCBTC"); ("side", PStr "BUY"); ("type", PStr "LIMIT");
      ("timeInForce", PStr "GTC"); ("quantity", PStr "1"); ("price", PStr "0.1");
      ("recvWindow", PNum 5000); ("timestamp", PNum 1499827319559) ]
  = "c8db56825ae71d6d79447849e617115f4a920fa2acdcab2b053c4b2838bd6b71".
Proof. vm_compute. reflexivity. Qed.

Example urlencode_reserved :
  urlencode "a b&c=d/e~f*g-h.i_j" = "a+b%26c%3Dd%2Fe%7Ef*g-h.i_j".
Proof. vm_compute. reflexivity. Qed.

Example parseFloat_texts :
  map parseFloat_string
      [ "30000"; "0.50000000"; "  12.5abc"; ".5"; "5."; "-0"; "1e3"; "1e"; "0x10" ]
  = [ 30000; 0.5; 12.5; 0.5; 5; (-0); 1000; 1; 0 ]%float.
Proof. vm_compute. reflexivity. Qed.

Example parseFloat_not_numbers :
  map (fun s => is_nan (parseFloat_string s)) [ ""; "abc"; "."; "e5"; "+"; "- 5" ]
  = [ true; true; true; true; true; true ].
Proof. vm_compute. reflexivity. Qed.

Example parseFloat_limits :
  map parseFloat_string [ "1e400"; "-Infinity"; "2e-324"; "3e-324" ]
  = [ infinity; neg_infinity; 0%float; 0x1p-1074%float ].
Proof. vm_compute. reflexivity. Qed.

(** Literals are the nearest binary64 values. *)
Example lit_tenth : lit 1 (-1) = 0x1.999999999999ap-4%float.
Proof. vm_compute. reflexivity. Qed.

Example Math_round_ties :
  map Math_round [ lit 25 (-1); lit (-25) (-1); lit 5 (-1); lit (-5) (-1);
                   lit 49999999999999994 (-17); lit 100005 (-1) ]
  = [ 3; (-2); 1; (-0); 0; 10001 ]%float.
Proof. vm_compute. reflexivity. Qed.

Example toFixed_values :
  map (toFixed 2) [ lit 1005 (-3); lit 123456 (-2); lit (-5) (-3); 0%float ]
  = [ Text "1.00"; Text "1234.56"; Text "-0.01"; Text "0.00" ].
Proof. vm_compute. reflexivity. Qed.

Example toISOString_values :
  map toISOString [ 0; 1499827319559; 951782400000; -1 ]%Z
  = [ "1970-01-01T00:00:00.000Z"; "2017-07-12T02:41:59.559Z";
      "2000-02-29T00:00:00.000Z"; "1969-12-31T23:59:59.999Z" ].
Proof. vm_compute. reflexivity. Qed.

End ModelChecks.

(* ===================================================================== *)
(** * Facts about binary64 arithmetic *)
(* ===================================================================== *)

(** What the proofs below need of IEEE addition and comparison: NaN is
  absorbing, [0] is neutral except on [-0], a sum is [-0] only when
  both terms are, and a sum is positive only when one term is. *)

Module FloatFacts.

Import JsNumber.

Local Open Scope Z_scope.

Lemma digits2_pos_lower (p : positive) :
  2 ^ (Z.pos (digits2_pos p) - 1) <= Z.pos p.
Proof.
  induction p as [p IH | p IH | ]; simpl digits2_pos.
  - rewrite Pos2Z.inj_succ.
    replace (Z.succ (Z.pos (digits2_pos p)) - 1)
      with (Z.succ (Z.pos (digits2_pos p) - 1)) by lia.
    rewrite Z.pow_succ_r by lia. lia.
  - rewrite Pos2Z.inj_succ.
    replace (Z.succ (Z.pos (digits2_pos p)) - 1)
      with (Z.succ (Z.pos (digits2_pos p) - 1)) by lia.
    rewrite Z.pow_succ_r by lia. lia.
  - simpl. lia.
Qed.

Lemma shr_1_m (r : shr_record) :
  0 <= shr_m r -> shr_m (shr_1 r) = Z.div2 (shr_m r).
Proof.
  destruct r as [m b s]. simpl.
  destruct m as [ | [p | p | ] | p ]; simpl; try reflexivity; lia.
Qed.

Lemma iter_shr_m (p : positive) :
  forall r, 0 <= shr_m r ->
    shr_m (SpecFloat.iter_pos shr_1 p r) = shr_m r / 2 ^ Z.pos p.
Proof.
  induction p as [p IH | p IH | ]; intros r Hr; simpl SpecFloat.iter_pos.
  - assert (H1 : 0 <= shr_m (shr_1 r)).
    { rewrite shr_1_m by assumption. rewrite Z.div2_div. apply Z.div_pos; lia. }
    assert (H2 : 0 <= shr_m (SpecFloat.iter_pos shr_1 p (shr_1 r))).
    { rewrite IH by assumption. apply Z.div_pos; lia. }
    rewrite IH by assumption. rewrite IH by assumption.
    rewrite shr_1_m by assumption. rewrite Z.div2_div.
    rewrite !Z.div_div by lia.
    f_equal. rewrite (Pos2Z.inj_xI p).
    replace (2 * Z.pos p + 1) with (1 + Z.pos p + Z.pos p) by lia.
    rewrite (Z.pow_add_r 2 (1 + Z.pos p) (Z.pos p)) by lia.
    rewrite (Z.pow_add_r 2 1 (Z.pos p)) by lia. lia.
  - assert (H2 : 0 <= shr_m (SpecFloat.iter_pos shr_1 p r)).
    { rewrite IH by assumption. apply Z.div_pos; lia. }
    rewrite IH by assumption. rewrite IH by assumption.
    rewrite !Z.div_div by lia.
    f_equal. rewrite (Pos2Z.inj_xO p).
    replace (2 * Z.pos p) with (Z.pos p + Z.pos p) by lia.
    rewrite (Z.pow_add_r 2 (Z.pos p) (Z.pos p)) by lia. lia.
  - rewrite shr_1_m by assumption. rewrite Z.div2_div. reflexivity.
Qed.

Lemma shr_record_of_loc_m (m : Z) (l : location) :
  shr_m (shr_record_of_loc m l) = m.
Proof. destruct l as [ | [ | | ] ]; reflexivity. Qed.

(** Shifting a positive mantissa to its canonical exponent keeps it
    positive when the exponent is at least [emin]. *)
Lemma shr_fexp_pos (m e : Z) (l : location) :
  0 < m -> emin <= e ->
  0 < shr_m (fst (shr_fexp prec emax m e l))
  /\ emin <= snd (shr_fexp prec emax m e l).
Proof.
  intros Hm He. unfold shr_fexp, shr.
  destruct m as [ | p | p ]; try lia.
  simpl Zdigits2.
  remember (fexp prec emax (Z.pos (digits2_pos p) + e) - e) as n eqn:Hn.
  destruct n as [ | q | q ]; simpl fst; simpl snd;
    rewrite ?shr_record_of_loc_m; try (split; lia).
  split; [ | lia ].
  rewrite iter_shr_m by (rewrite shr_record_of_loc_m; lia).
  rewrite shr_record_of_loc_m.
  apply Z.div_str_pos. split; [ lia | ].
  unfold fexp in Hn.
  assert (Hq : Z.pos q = Z.pos (digits2_pos p) - prec).
  { unfold SpecFloat.emin in *. unfold prec, emax in *. lia. }
  pose proof (digits2_pos_lower p) as Hlow.
  eapply Z.le_trans; [ | exact Hlow ].
  apply Z.pow_le_mono_r; [ lia | ]. rewrite Hq. unfold prec. lia.
Qed.

Lemma round_nearest_even_ge (m : Z) (l : location) :
  m <= round_nearest_even m l.
Proof.
  destruct l as [ | [ | | ] ]; simpl; try lia.
  destruct (Z.even m); lia.
Qed.

Lemma binary_round_aux_nonzero (s s' : bool) (m e : Z) (l : location) :
  0 < m -> emin <= e ->
  binary_round_aux prec emax s m e l <> S754_zero s'.
Proof.
  intros Hm He. unfold binary_round_aux.
  destruct (shr_fexp_pos m e l Hm He) as [H1 H2].
  destruct (shr_fexp prec emax m e l) as [r1 e1]. simpl in H1, H2.
  pose proof (round_nearest_even_ge (shr_m r1) (loc_of_shr_record r1)) as Hge.
  destruct (shr_fexp_pos (round_nearest_even (shr_m r1) (loc_of_shr_record r1))
              e1 loc_Exact ltac:(lia) H2) as [H3 _].
  destruct (shr_fexp prec emax _ e1 loc_Exact) as [r2 e2]. simpl in H3.
  destruct (shr_m r2); try lia.
  destruct (e2 <=? emax - prec); discriminate.
Qed.

Lemma binary_round_nonzero (s s' : bool) (m : positive) (e : Z) :
  emin <= e -> binary_round prec emax s m e <> S754_zero s'.
Proof.
  intros He. unfold binary_round, shl_align.
  remember (fexp prec emax (Z.pos (digits2_pos m) + e)) as fe eqn:Hfe.
  assert (emin <= fe) by (subst fe; unfold fexp; lia).
  destruct (fe - e); apply binary_round_aux_nonzero; lia.
Qed.

Lemma valid_emin (s : bool) (m : positive) (e : Z) :
  valid_binary (S754_finite s m e) = true -> emin <= e.
Proof.
  simpl. unfold bounded, canonical_mantissa, fexp.
  intros H. apply andb_prop in H as [H _]. apply Z.eqb_eq in H. lia.
Qed.

(** A sum is [-0] only when both operands are. *)
Lemma SFadd_neg_zero (x y : spec_float) :
  valid_binary x = true -> valid_binary y = true ->
  SF64add x y = S754_zero true -> x = S754_zero true /\ y = S754_zero true.
Proof.
  intros Hx Hy. unfold SF64add, SFadd.
  destruct x as [ [ | ] | [ | ] | | sx mx ex ];
    destruct y as [ [ | ] | [ | ] | | sy my ey ];
    try discriminate; try (intros; split; reflexivity).
  apply valid_emin in Hx. apply valid_emin in Hy.
  unfold binary_normalize.
  destruct (cond_Zopp sx _ + cond_Zopp sy _); try discriminate;
    intros H; apply binary_round_nonzero in H; try contradiction; lia.
Qed.

(** ** Primitive floats *)

Local Open Scope float_scope.

Lemma Prim2SF_zero : Prim2SF 0 = S754_zero false.
Proof. reflexivity. Qed.

Lemma Prim2SF_nan : Prim2SF nan = S754_nan.
Proof. reflexivity. Qed.

Lemma SFeqb_irrefl (x : spec_float) :
  SFeqb x x = false <-> x = S754_nan.
Proof.
  unfold SFeqb. split.
  - destruct x as [ s | [ | ] | | [ | ] m e ]; simpl; try congruence;
      rewrite Z.compare_refl, Pos.compare_cont_refl; discriminate.
  - intros ->. reflexivity.
Qed.

Lemma is_nan_spec (x : float) :
  PrimFloat.is_nan x = true <-> Prim2SF x = S754_nan.
Proof.
  unfold PrimFloat.is_nan. rewrite FloatAxioms.eqb_spec, negb_true_iff.
  apply SFeqb_irrefl.
Qed.

Lemma nan_eq (x : float) : Prim2SF x = S754_nan -> x = nan.
Proof. intros H. apply Prim2SF_inj. rewrite H. reflexivity. Qed.

Lemma add_nan_l (x y : float) : Prim2SF x = S754_nan -> x + y = nan.
Proof.
  intros H. apply nan_eq. rewrite FloatAxioms.add_spec, H. reflexivity.
Qed.

Lemma add_nan_r (x y : float) : Prim2SF y = S754_nan -> x + y = nan.
Proof.
  intros H. apply nan_eq. rewrite FloatAxioms.add_spec, H.
  destruct (Prim2SF x); reflexivity.
Qed.

(** [x + 0 = x] unless [x] is [-0]. *)
Lemma add_zero_r (x : float) :
  Prim2SF x <> S754_zero true -> x + 0 = x.
Proof.
  intros H. apply Prim2SF_inj. rewrite FloatAxioms.add_spec, Prim2SF_zero.
  destruct (Prim2SF x) as [ [ | ] | [ | ] | | s m e ]; try reflexivity.
  congruence.
Qed.

Lemma add_not_neg_zero (x y : float) :
  Prim2SF x <> S754_zero true -> Prim2SF (x + y) <> S754_zero true.
Proof.
  intros H E. rewrite FloatAxioms.add_spec in E.
  apply SFadd_neg_zero in E as [E _]; auto using Prim2SF_valid.
Qed.

(** Positivity, as the source tests it: [0 < x]. *)
Lemma ltb_zero (x : float) : (0 <? x) = positive_sf (Prim2SF x).
Proof.
  rewrite FloatAxioms.ltb_spec, Prim2SF_zero.
  destruct (Prim2SF x) as [ [ | ] | [ | ] | | [ | ] m e ]; reflexivity.
Qed.

Lemma binary_round_sign (m : positive) (e : Z) :
  positive_sf (binary_round prec emax true m e) = false.
Proof.
  unfold binary_round, binary_round_aux.
  destruct (shl_align _ _ _) as [mz ez].
  destruct (shr_fexp prec emax (Z.pos mz) ez loc_Exact) as [r1 e1].
  destruct (shr_fexp prec emax _ e1 loc_Exact) as [r2 e2].
  destruct (shr_m r2); try reflexivity.
  destruct (Z.leb e2 (emax - prec)); reflexivity.
Qed.

(** A sum is positive only if one of its terms is. *)
Lemma SFadd_positive (x y : spec_float) :
  positive_sf (SF64add x y) = true ->
  positive_sf x = true \/ positive_sf y = true.
Proof.
  destruct x as [ [ | ] | [ | ] | | [ | ] mx ex ];
    destruct y as [ [ | ] | [ | ] | | [ | ] my ey ];
    simpl; auto; try discriminate.
  unfold SF64add, SFadd, binary_normalize. cbn [cond_Zopp Z.opp Z.add].
  rewrite binary_round_sign. discriminate.
Qed.

Lemma ltb_zero_add (x y : float) :
  (0 <? x + y) = true -> (0 <? x) = true \/ (0 <? y) = true.
Proof.
  rewrite !ltb_zero, FloatAxioms.add_spec. apply SFadd_positive.
Qed.

(** Adding [0] changes neither the sign test nor a positive value. *)
Lemma ltb_zero_add_zero (x : float) : (0 <? x + 0) = (0 <? x).
Proof.
  rewrite !ltb_zero, FloatAxioms.add_spec, Prim2SF_zero.
  destruct (Prim2SF x) as [ [ | ] | [ | ] | | [ | ] m e ]; reflexivity.
Qed.


End FloatFacts.

(* ===================================================================== *)
(** * The valuation *)
(* ===================================================================== *)

Module ValuationFacts.

Import JsNumber Js Valuation ValuationSpec FloatFacts.
Local Open Scope float_scope.

Lemma not_neg_zero_0 : not_neg_zero 0.
Proof. unfold not_neg_zero. rewrite Prim2SF_zero. discriminate. Qed.

(** One step of the loop adds the entry's contribution when the entry
    is counted and leaves the total alone otherwise. *)
Lemma addBalance_counted (prices : Prices) (acc : float) (b : Balance) :
  not_neg_zero acc -> counted b = true ->
  addBalance prices acc b = acc + contribution prices b.
Proof.
  intros Hacc Hb. unfold addBalance, contribution, quoteValue.
  unfold counted, amount in Hb. rewrite Hb. fold (amount b).
  destruct (String.eqb (asset b) "USDT"); [ reflexivity | ].
  destruct (String.eqb (asset b) "BUSD"); [ reflexivity | ].
  destruct (truthy _); [ reflexivity | ].
  symmetry. apply add_zero_r. exact Hacc.
Qed.

Lemma addBalance_skipped (prices : Prices) (acc : float) (b : Balance) :
  counted b = false -> addBalance prices acc b = acc.
Proof.
  intros Hb. unfold addBalance. unfold counted, amount in Hb.
  rewrite Hb. reflexivity.
Qed.

Lemma fold_addBalance (prices : Prices) (bs : list Balance) :
  forall acc, not_neg_zero acc ->
    fold_left (addBalance prices) bs acc
    = fold_left PrimFloat.add
        (map (contribution prices) (List.filter counted bs)) acc.
Proof.
  induction bs as [ | b bs IH ]; intros acc Hacc; simpl; [ reflexivity | ].
  destruct (counted b) eqn:Hb; simpl.
  - rewrite addBalance_counted by assumption.
    apply IH. apply add_not_neg_zero. exact Hacc.
  - rewrite addBalance_skipped by assumption. apply IH. exact Hacc.
Qed.

Lemma calculateTotalBalance_valuation (bs : list Balance) (prices : Prices) :
  calculateTotalBalance bs prices = valuation bs prices.
Proof. apply fold_addBalance, not_neg_zero_0. Qed.

(** C1 (amended).  For every list of balances and every price table,
    [calculateTotalBalance] is the sum, in list order, over exactly the
    entries with [free + locked > 0], of: the entry's total when its asset
    is USDT; its total when the asset is BUSD; otherwise the total times
    the price stored under [asset + "USDT"] when that stored value is
    truthy, and [0] when the table has no such entry or the stored value
    is falsy (an empty string, a zero, null). *)
Theorem valuation_rule (bs : list Balance) (prices : Prices) :
  calculateTotalBalance bs prices
  = sum (map (fun b => quoteValue prices b.(asset) (amount b))
             (List.filter (fun b => gt0 (amount b)) bs))
  /\ (forall asset amt,
        quoteValue prices asset amt =
          if String.eqb asset "USDT" then amt
          else if String.eqb asset "BUSD" then amt
          else match prices !! (asset ++ "USDT")%string with
               | Some price => if truthy price then amt * parseFloat price else 0
               | None => 0
               end).
Proof.
  split.
  - apply calculateTotalBalance_valuation.
  - intros a amt. unfold quoteValue, get.
    destruct (prices !! _); reflexivity.
Qed.

Lemma claimed_contribution_truthy (prices : Prices) (b : Balance) :
  (forall k v, prices !! k = Some v -> truthy v = true) ->
  claimed_contribution prices b = contribution prices b.
Proof.
  intros H. unfold claimed_contribution, contribution, quoteValue, get.
  destruct (String.eqb (asset b) "USDT"); [ reflexivity | ].
  destruct (String.eqb (asset b) "BUSD"); [ reflexivity | ].
  destruct (prices !! _) as [ v | ] eqn:E; [ | reflexivity ].
  rewrite (H _ _ E). reflexivity.
Qed.

(** When every stored price is truthy the rule reads as the
    specification words it. *)
Lemma valuation_as_claimed (bs : list Balance) (prices : Prices) :
  (forall k v, prices !! k = Some v -> truthy v = true) ->
  calculateTotalBalance bs prices = claimed_valuation bs prices.
Proof.
  intros H. rewrite calculateTotalBalance_valuation.
  unfold valuation, claimed_valuation. f_equal.
  apply map_ext. intros b. symmetry. apply claimed_contribution_truthy, H.
Qed.

(** C1 as worded fails on a price entry that exists and is falsy: for one
    XYZ and the table [{"XYZUSDT": ""}] the loop skips the entry
    ([if (price)]) and returns [0], while the total times the price found,
    [1 * parseFloat("")], is NaN. *)
Lemma valuation_rule_counterexample :
  calculateTotalBalance Scenario.one_xyz {[ "XYZUSDT"%string := Str "" ]} = 0
  /\ claimed_valuation Scenario.one_xyz {[ "XYZUSDT"%string := Str "" ]} = nan.
Proof. split; vm_compute; reflexivity. Qed.

(** ** Malformed entries *)

Lemma amount_malformed (b : Balance) :
  wellFormed b = false -> amount b = nan.
Proof.
  unfold wellFormed, amount, is_nan. intros H.
  apply andb_false_iff in H as [H | H]; apply negb_false_iff in H;
    apply is_nan_spec in H.
  - apply add_nan_l. exact H.
  - apply add_nan_r. exact H.
Qed.

Lemma addBalance_malformed (prices : Prices) (acc : float) (b : Balance) :
  wellFormed b = false -> addBalance prices acc b = acc.
Proof.
  intros H. apply addBalance_skipped. unfold counted.
  rewrite (amount_malformed b H). reflexivity.
Qed.

Lemma fold_wellFormed (prices : Prices) (bs : list Balance) :
  forall acc,
    fold_left (addBalance prices) bs acc
    = fold_left (addBalance prices) (List.filter wellFormed bs) acc.
Proof.
  induction bs as [ | b bs IH ]; intros acc; simpl; [ reflexivity | ].
  destruct (wellFormed b) eqn:Hb; simpl.
  - apply IH.
  - rewrite addBalance_malformed by assumption. apply IH.
Qed.

(** C10 (amended).  An entry whose [free] or [locked] does not parse
    (parseFloat gives NaN) leaves the running total as it is, so the
    result on any mix of entries is the result on the well-formed entries
    alone; in particular it is NaN only if the valuation of the
    well-formed entries is NaN. *)
Theorem malformed_entries_ignored (bs : list Balance) (prices : Prices) :
  calculateTotalBalance bs prices
  = calculateTotalBalance (List.filter wellFormed bs) prices
  /\ (forall acc b, wellFormed b = false -> addBalance prices acc b = acc)
  /\ (is_nan (calculateTotalBalance bs prices) = true ->
      is_nan (calculateTotalBalance (List.filter wellFormed bs) prices) = true).
Proof.
  assert (E : calculateTotalBalance bs prices
              = calculateTotalBalance (List.filter wellFormed bs) prices)
    by apply fold_wellFormed.
  split; [ exact E | split ].
  - intros acc b. apply addBalance_malformed.
  - rewrite <- E. trivial.
Qed.

(** C10 as worded ("never NaN") fails with no malformed entry at all: a
    truthy price that does not parse, or an amount that overflows to
    Infinity against a price of zero, gives NaN. *)
Lemma total_nan_counterexample :
  forallb wellFormed Scenario.one_xyz = true
  /\ calculateTotalBalance Scenario.one_xyz {[ "XYZUSDT"%string := Str "abc" ]} = nan
  /\ forallb wellFormed Scenario.huge_xyz = true
  /\ calculateTotalBalance Scenario.huge_xyz {[ "XYZUSDT"%string := Str "0.00000000" ]} = nan.
Proof. repeat split; vm_compute; reflexivity. Qed.

(** ** The per-asset list *)

Lemma counted_nonZero (b : Balance) : counted b = true -> nonZero b = true.
Proof.
  unfold counted, gt0, amount, nonZero. intros H.
  apply ltb_zero_add in H as [H | H]; unfold gt0; rewrite H;
    auto using orb_true_r.
Qed.

Lemma rows_filter (prices : Prices) (bs : list Balance) :
  List.filter (fun r => gt0 r.(row_total))
              (map (assetRow prices) (List.filter nonZero bs))
  = map (assetRow prices) (List.filter counted bs).
Proof.
  induction bs as [ | b bs IH ]; simpl; [ reflexivity | ].
  destruct (counted b) eqn:Hc.
  - rewrite (counted_nonZero b Hc). simpl.
    unfold counted, amount in Hc. rewrite Hc. simpl. f_equal. exact IH.
  - destruct (nonZero b); simpl; [ | exact IH ].
    unfold counted, amount in Hc. rewrite Hc. exact IH.
Qed.

(** C8.  The per-asset list keeps exactly the entries whose raw total
    [free + locked] is greater than 0, in order, whatever their quote
    value: prices play no part in the filter.  For [{XYZ, free:10,
    locked:0}] and an empty price table the reported total is 0 and the
    list holds the XYZ row with total 10 and usdtValue 0. *)
Theorem per_asset_filter (accountBalances : list Balance) (prices : Prices) :
  (balanceData accountBalances prices).(balances)
  = map (assetRow prices)
        (List.filter (fun b => gt0 (parseFloat b.(free) + parseFloat b.(locked)))
                     accountBalances)
  /\ (balanceData Scenario.xyz_balances ∅).(total) = 0
  /\ (balanceData Scenario.xyz_balances ∅).(balances)
     = [ {| row_asset := "XYZ"; row_free := 10; row_locked := 0;
            row_total := 10; usdtValue := 0 |} ].
Proof.
  split; [ apply rows_filter | split; vm_compute; reflexivity ].
Qed.

(** ** total, available and inOrders *)

Lemma parseFloat_zero_text : parseFloat (Str "0") = 0.
Proof. vm_compute. reflexivity. Qed.






(** ** The BTC equivalent *)



Lemma digits2_pos_upper (p : positive) :
  (Z.pos p < 2 ^ Z.pos (digits2_pos p))%Z.
Proof.
  induction p as [p IH | p IH | ]; simpl digits2_pos;
    try (rewrite Pos2Z.inj_succ, Z.pow_succ_r by lia; lia).
  reflexivity.
Qed.

Lemma finite_mantissa_bound (x : float) (s : bool) (m : positive) (e : Z) :
  Prim2SF x = S754_finite s m e -> (Z.pos m < 2 ^ 53)%Z.
Proof.
  intros Hx. pose proof (Prim2SF_valid x) as Hv. rewrite Hx in Hv.
  simpl in Hv. unfold bounded, canonical_mantissa, fexp in Hv.
  apply andb_prop in Hv as [Hc _]. apply Z.eqb_eq in Hc.
  eapply Z.lt_le_trans; [ apply digits2_pos_upper | ].
  apply Z.pow_le_mono_r; unfold prec in Hc; lia.
Qed.




(** C7.  For [{BTC, free:0.5, locked:0.1}, {USDT, free:100, locked:0}]
    and prices [{"BTCUSDT": "30000"}] the response has total 18100,
    available 15100, inOrders 3000 and the BTC equivalent
    ["0.60333333"]. *)
Theorem end_to_end_scenario :
  let d := balanceData Scenario.btc_usdt_balances Scenario.btc_prices in
  d.(total) = 18100
  /\ d.(available) = 15100
  /\ d.(inOrders) = 3000
  /\ d.(btcValue) = Some (Text "0.60333333").
Proof. cbv zeta. repeat split; vm_compute; reflexivity. Qed.

End ValuationFacts.

(* ===================================================================== *)
(** * The signer *)
(* ===================================================================== *)

Module SignerFacts.

Import JsNumber Exn Signer Scenario.
Local Open Scope string_scope.
Local Open Scope list_scope.

(** ** Objects *)

Lemma get_set_eq (k : string) (v : pvalue) (o : object) :
  get k (set k v o) = Some v.
Proof.
  induction o as [ | [k' v'] o IH ]; simpl.
  - rewrite String.eqb_refl. reflexivity.
  - destruct (String.eqb k' k) eqn:E; simpl.
    + rewrite String.eqb_refl. reflexivity.
    + rewrite E. exact IH.
Qed.







(** ** The steps of createSignedParams *)

Lemma createSignedParams_run (cfg : config) (params : object) (w : world) :
  let query := set "timestamp" (PNum w.(clock)) (spread params []) in
  let qs := URLSearchParams_toString query in
  createSignedParams cfg params w =
    match cfg.(SECRET_KEY) with
    | Some secret =>
        if String.eqb secret "" then
          (Throw (Error "SECRET_KEY is not configured"),
           {| clock := w.(clock);
              trace := w.(trace) ++ [DateNow w.(clock); Serialized qs] |})
        else
          (Ok (set "signature" (PStr (signature_of secret query)) query),
           {| clock := w.(clock);
              trace := w.(trace) ++ [DateNow w.(clock); Serialized qs;
                                     HmacDigest secret qs] |})
    | None =>
        (Throw (Error "SECRET_KEY is not configured"),
         {| clock := w.(clock);
            trace := w.(trace) ++ [DateNow w.(clock); Serialized qs] |})
    end.
Proof.
  cbv zeta.
  unfold createSignedParams, bind, Date_now, serialize, generateSignature,
    createHmac_digest, tell, bind, ret, throw, configured, signature_of.
  destruct (SECRET_KEY cfg) as [ secret | ];
    [ destruct (String.eqb secret "") | ];
    cbn [negb clock trace]; rewrite <- ?app_assoc; reflexivity.
Qed.

(** With a usable secret the two signers agree. *)
Lemma sign_configured (cfg : config) (params : object) (w : world) :
  configured cfg.(SECRET_KEY) = true ->
  sign cfg params w = createSignedParams cfg params w.
Proof.
  intros H. unfold sign, createSignedParams, generateSignature.
  rewrite H. reflexivity.
Qed.

(** C2 (amended).  For every parameter set, the empty one included,
    [createSignedParams] fails with [Error('SECRET_KEY is not
    configured')] when the secret is empty or absent.  The check is made
    in [generateSignature]: the clock has been read and the query string
    serialised by then, and no HMAC is computed. *)
Theorem missing_secret_rejected (cfg : config) (params : object) (w : world) :
  configured cfg.(SECRET_KEY) = false ->
  createSignedParams cfg params w
  = (Throw (Error "SECRET_KEY is not configured"),
     {| clock := w.(clock);
        trace := w.(trace)
                 ++ [ DateNow w.(clock);
                      Serialized (URLSearchParams_toString
                                    (set "timestamp" (PNum w.(clock))
                                       (spread params []))) ] |}).
Proof.
  intros H. rewrite createSignedParams_run. unfold configured in H.
  destruct (SECRET_KEY cfg) as [ secret | ]; [ | reflexivity ].
  apply negb_false_iff in H. rewrite H. reflexivity.
Qed.

(** C2 at the empty parameter set, neither credential configured. *)
Lemma missing_secret_rejected_witness :
  createSignedParams Scenario.no_credentials [] (Scenario.at_time 1700000000000)
  = (Throw (Error "SECRET_KEY is not configured"),
     {| clock := 1700000000000;
        trace := [ DateNow 1700000000000; Serialized "timestamp=1700000000000" ] |}).
Proof.
  exact (missing_secret_rejected Scenario.no_credentials []
           (Scenario.at_time 1700000000000) eq_refl).
Defined.

(** C2 as worded fails: without a secret [createSignedParams] reads the
    clock and serialises the query before it throws, and [sign] has no
    check of its own, so the failure there is the TypeError of
    [crypto.createHmac]. *)
Lemma missing_secret_counterexample :
  createSignedParams Scenario.no_credentials [] (Scenario.at_time 1700000000000)
  = (Throw (Error "SECRET_KEY is not configured"),
     {| clock := 1700000000000;
        trace := [ DateNow 1700000000000; Serialized "timestamp=1700000000000" ] |})
  /\ sign Scenario.no_credentials [] (Scenario.at_time 1700000000000)
     = (Throw (TypeError "ERR_INVALID_ARG_TYPE"),
        {| clock := 1700000000000;
           trace := [ DateNow 1700000000000; Serialized "timestamp=1700000000000" ] |}).
Proof. split; vm_compute; reflexivity. Qed.



(** ** Determinism *)

Lemma result_ignores_trace (cfg : config) (params : object) (t : Z)
      (tr1 tr2 : list event) :
  fst (createSignedParams cfg params {| clock := t; trace := tr1 |})
  = fst (createSignedParams cfg params {| clock := t; trace := tr2 |}).
Proof.
  rewrite !createSignedParams_run. cbn [clock trace].
  destruct (SECRET_KEY cfg) as [ secret | ];
    [ destruct (String.eqb secret "") | ]; reflexivity.
Qed.

(** C6.  The signed output depends on the clock reading, the secret and
    the parameters only: two runs at the same time give the same result.
    And two parameter sets that differ in one value, [symbol=BTCUSDT] and
    [symbol=ETHUSDT], get different signatures. *)
Theorem signing_deterministic :
  (forall cfg params t tr1 tr2,
      fst (createSignedParams cfg params {| clock := t; trace := tr1 |})
      = fst (createSignedParams cfg params {| clock := t; trace := tr2 |}))
  /\ signature_at [("symbol", PStr "BTCUSDT")]
     = Some (PStr "a3569fd59e817dd9dad22a7a370950ff1919b709029f22a6963b3f0f7a822cbe")
  /\ signature_at [("symbol", PStr "ETHUSDT")]
     = Some (PStr "d8bc862ff6096697d3d3ea8af90e509af630954de1fb64bf1df75bddd1166465")
  /\ signature_at [("symbol", PStr "BTCUSDT")]
     <> signature_at [("symbol", PStr "ETHUSDT")].
Proof.
  split; [ apply result_ignores_trace | ].
  repeat split; try (vm_compute; reflexivity).
  vm_compute. discriminate.
Qed.


End SignerFacts.

(* ===================================================================== *)
(** * The health check never throws *)
(* ===================================================================== *)

Module HealthFacts.

Import Exn Health.
Local Open Scope string_scope.

Lemma configured_spec (v : option string) :
  configured v = true <-> exists s, v = Some s /\ s <> "".
Proof.
  destruct v as [ s | ]; simpl.
  - rewrite negb_true_iff, String.eqb_neq. split.
    + intros H. exists s. auto.
    + intros (s' & [= <-] & H). exact H.
  - split; [ discriminate | intros (s & H & _); discriminate ].
Qed.

Lemma length_of_configured (v : option string) :
  exists n, (if configured v then length_of v else Ok 0%Z) = Ok n.
Proof.
  destruct v as [ s | ]; simpl; [ destruct (negb _) | ]; eauto.
Qed.

Lemma substring_of_configured (v : option string) :
  exists s,
    (if configured v
     then bind (substring_of 8 v) (fun s => Ok (s ++ "..."))
     else Ok "undefined") = Ok s.
Proof.
  destruct v as [ s | ]; simpl; [ destruct (negb _) | ]; simpl; eauto.
Qed.

Lemma health_debug_ok (env : environment) (now : Z) :
  exists b,
    health_debug env now = Ok {| statusCode := 200; body := b |}
    /\ b.(d_apiKeyConfigured) = configured (getenv "BINANCE_API_KEY" env)
    /\ b.(d_secretKeyConfigured) = configured (getenv "BINANCE_SECRET_KEY" env).
Proof.
  unfold health_debug.
  destruct (length_of_configured (getenv "BINANCE_API_KEY" env)) as [n1 ->].
  destruct (length_of_configured (getenv "BINANCE_SECRET_KEY" env)) as [n2 ->].
  destruct (substring_of_configured (getenv "BINANCE_API_KEY" env)) as [s ->].
  simpl. eexists. split; [ reflexivity | ]. simpl. auto.
Qed.

(** C9.  Both health handlers return, for every configuration, status
    200 with [apiKeyConfigured] and [secretKeyConfigured] telling whether
    the credential is a non-empty string; with no credential at all both
    flags are [false]. *)
Theorem health_never_throws (cfg : config) (env : environment) (now : Z) :
  (exists b,
      health cfg now = Ok {| statusCode := 200; body := b |}
      /\ b.(apiKeyConfigured) = configured cfg.(API_KEY)
      /\ b.(secretKeyConfigured) = configured cfg.(SECRET_KEY))
  /\ (exists b,
        health_debug env now = Ok {| statusCode := 200; body := b |}
        /\ b.(d_apiKeyConfigured) = configured (getenv "BINANCE_API_KEY" env)
        /\ b.(d_secretKeyConfigured) = configured (getenv "BINANCE_SECRET_KEY" env))
  /\ configured None = false
  /\ (forall v, configured v = true <-> exists s, v = Some s /\ s <> "")
  /\ (exists b,
        health (load []) now = Ok {| statusCode := 200; body := b |}
        /\ b.(apiKeyConfigured) = false /\ b.(secretKeyConfigured) = false)
  /\ (exists b,
        health_debug [] now = Ok {| statusCode := 200; body := b |}
        /\ b.(d_apiKeyConfigured) = false /\ b.(d_secretKeyConfigured) = false).
Proof.
  split; [ | split; [ | split; [ | split; [ | split ] ] ] ].
  - eexists. split; [ reflexivity | ]. simpl. auto.
  - apply health_debug_ok.
  - reflexivity.
  - apply configured_spec.
  - eexists. split; [ reflexivity | ]. simpl. auto.
  - eexists. split; [ reflexivity | ]. simpl. auto.
Qed.

End HealthFacts.

(* ===================================================================== *)
(** * The price table and the reported figures *)
(* ===================================================================== *)

Module PriceFacts.


Import JsNumber Js Valuation ValuationSpec Handlers HandlersSpec FloatFacts ValuationFacts.
Local Open Scope float_scope.

Lemma length_append (s1 s2 : string) :
  String.length (s1 ++ s2) = (String.length s1 + String.length s2)%nat.
Proof. induction s1 as [ | c s1 IH ]; simpl; [ reflexivity | rewrite IH; reflexivity ]. Qed.

Lemma pair_symbol_not_proto (asset : string) :
  (asset ++ "USDT")%string <> "__proto__"%string.
Proof.
  intros H. pose proof (f_equal String.length H) as Hlen.
  rewrite length_append in Hlen. simpl in Hlen.
  destruct asset as [ | c1 [ | c2 [ | c3 [ | c4 [ | c5 [ | c6 a ] ] ] ] ] ];
    simpl in Hlen; try lia.
  simpl in H. discriminate.
Qed.

Lemma fold_setPrice_lookup (data : list Ticker) (s : string) :
  s <> "__proto__"%string ->
  forall prices : Prices,
    fold_left setPrice data prices !! s
    = match lastPrice data s with
      | Some v => Some v
      | None => prices !! s
      end.
Proof.
  intros Hs. unfold lastPrice.
  induction data as [ | t data IH ] using rev_ind; intros prices.
  - reflexivity.
  - rewrite fold_left_app, rev_app_distr. simpl. unfold setPrice at 1.
    destruct (String.eqb (symbol t) s) eqn:E.
    + apply String.eqb_eq in E. subst s.
      apply String.eqb_neq in Hs. rewrite Hs. simpl.
      apply lookup_insert_eq.
    + apply String.eqb_neq in E.
      destruct (String.eqb (symbol t) "__proto__").
      * apply IH.
      * rewrite lookup_insert_ne by exact E. apply IH.
Qed.

(** getCurrentPrices, the table it builds: for every ticker list the
    exchange answers with and every asset, the price looked up under
    asset+"USDT" is the price of the last ticker of the list carrying
    that symbol, and [undefined] when no ticker carries it. *)
Theorem prices_last_ticker_wins (data : list Ticker) (asset : string) :
  get (getCurrentPrices (Reply data)) (asset ++ "USDT")
  = match lastPrice data (asset ++ "USDT") with
    | Some v => v
    | None => Undefined
    end.
Proof.
  unfold get, getCurrentPrices.
  rewrite (fold_setPrice_lookup data _ (pair_symbol_not_proto asset) ∅).
  destruct (lastPrice data _); [ reflexivity | ].
  rewrite lookup_empty. reflexivity.
Qed.

(** ** The valuation without prices *)

Lemma fold_pegged (prices : Prices) (bs : list Balance) :
  (forall b, In b bs -> pegged b = false ->
             truthy (get prices (b.(asset) ++ "USDT")) = false) ->
  forall acc, not_neg_zero acc ->
    fold_left PrimFloat.add (map (contribution prices) (List.filter counted bs)) acc
    = fold_left PrimFloat.add
        (map amount (List.filter (fun b => counted b && pegged b) bs)) acc.
Proof.
  induction bs as [ | b bs IH ]; intros Hp acc Hacc; simpl; [ reflexivity | ].
  assert (Hp' : forall b', In b' bs -> pegged b' = false ->
                           truthy (get prices (asset b' ++ "USDT")) = false)
    by (intros b' Hin; apply Hp; right; exact Hin).
  destruct (counted b) eqn:Hc; simpl; [ | apply IH; assumption ].
  destruct (pegged b) eqn:Hpg; simpl.
  - replace (contribution prices b) with (amount b).
    + apply IH; [ assumption | ]. apply add_not_neg_zero. exact Hacc.
    + unfold contribution, quoteValue. unfold pegged in Hpg.
      destruct (String.eqb (asset b) "USDT"); [ reflexivity | ].
      simpl in Hpg. rewrite Hpg. reflexivity.
  - replace (contribution prices b) with 0.
    + rewrite add_zero_r by exact Hacc. apply IH; assumption.
    + unfold contribution, quoteValue. unfold pegged in Hpg.
      assert (Ht : truthy (get prices (asset b ++ "USDT")) = false)
        by (apply Hp; [ left; reflexivity | exact Hpg ]).
      apply orb_false_iff in Hpg as [H1 H2]. rewrite H1, H2, Ht.
      reflexivity.
Qed.

Lemma valuation_without_prices
      (bs : list Balance) (status : option Z) (msg : value) (message : string) :
  calculateTotalBalance bs (getCurrentPrices (Rejected status msg message))
  = sum (map amount (List.filter (fun b => counted b && pegged b) bs)).
Proof.
  rewrite calculateTotalBalance_valuation. unfold valuation, sum. simpl.
  apply fold_pegged; [ | apply not_neg_zero_0 ].
  intros b _ _. unfold get. rewrite lookup_empty. reflexivity.
Qed.

(** ** The filter of zero balances *)

Lemma filter_counted_nonZero (bs : list Balance) :
  List.filter counted (List.filter nonZero bs) = List.filter counted bs.
Proof.
  induction bs as [ | b bs IH ]; simpl; [ reflexivity | ].
  destruct (counted b) eqn:Hc.
  - rewrite (counted_nonZero b Hc). simpl. rewrite Hc, IH. reflexivity.
  - destruct (nonZero b); simpl; [ rewrite Hc | ]; exact IH.
Qed.

Lemma filter_nonZero_total (bs : list Balance) (prices : Prices) :
  calculateTotalBalance (List.filter nonZero bs) prices
  = calculateTotalBalance bs prices.
Proof.
  rewrite !calculateTotalBalance_valuation. unfold valuation.
  rewrite filter_counted_nonZero. reflexivity.
Qed.

Lemma addBalance_uncounted_free (prices : Prices) (acc : float) (b : Balance) :
  nonZero b = false -> addBalance prices acc (zeroLocked b) = acc.
Proof.
  unfold nonZero. intros H. apply orb_false_iff in H as [Hf _].
  unfold addBalance, zeroLocked, gt0 in *. cbn [free locked asset].
  rewrite parseFloat_zero_text, ltb_zero_add_zero, Hf. reflexivity.
Qed.

Lemma fold_zeroLocked_filter (prices : Prices) (bs : list Balance) :
  forall acc,
    fold_left (addBalance prices) (map zeroLocked (List.filter nonZero bs)) acc
    = fold_left (addBalance prices) (map zeroLocked bs) acc.
Proof.
  induction bs as [ | b bs IH ]; intros acc; simpl; [ reflexivity | ].
  destruct (nonZero b) eqn:Hb; simpl.
  - apply IH.
  - rewrite (addBalance_uncounted_free prices acc b Hb). apply IH.
Qed.

(** The balance route, the filter of zero balances: for every balance
    list and price table the three reported figures are the ones the
    unfiltered list gives: total is the rounded valuation of the list as
    received, available the rounded valuation of the list with every
    locked amount zeroed, and inOrders their rounded difference. *)
Theorem reported_figures_ignore_prefilter
        (accountBalances : list Balance) (prices : Prices) :
  (balanceData accountBalances prices).(total)
  = round2 (calculateTotalBalance accountBalances prices)
  /\ (balanceData accountBalances prices).(available)
     = round2 (calculateTotalBalance (map zeroLocked accountBalances) prices)
  /\ (balanceData accountBalances prices).(inOrders)
     = round2 (calculateTotalBalance accountBalances prices
               - calculateTotalBalance (map zeroLocked accountBalances) prices).
Proof.
  unfold balanceData. cbn [total available inOrders].
  rewrite filter_nonZero_total.
  assert (E : calculateTotalBalance
                (map zeroLocked (List.filter nonZero accountBalances)) prices
              = calculateTotalBalance (map zeroLocked accountBalances) prices)
    by apply fold_zeroLocked_filter.
  rewrite E. repeat split; reflexivity.
Qed.

(** ** The total and the rows *)

Lemma usdtValue_contribution (prices : Prices) (b : Balance) :
  b.(asset) <> "BUSD"%string ->
  (assetRow prices b).(usdtValue) = contribution prices b.
Proof.
  intros H. apply String.eqb_neq in H.
  unfold assetRow, contribution, quoteValue, amount. simpl. rewrite H.
  reflexivity.
Qed.

(** The balance route, total against rows: when no balance entry is a
    BUSD entry, the valuation behind the reported total is the sum, in
    row order from 0, of the usdtValue fields of the reported rows.  (A
    BUSD entry counts at par in the total, while its row is priced by
    the BUSDUSDT ticker.) *)
Theorem total_is_sum_of_rows (accountBalances : list Balance) (prices : Prices) :
  (forall b, In b accountBalances -> b.(asset) <> "BUSD"%string) ->
  calculateTotalBalance (List.filter nonZero accountBalances) prices
  = sum (map usdtValue (balanceData accountBalances prices).(balances)).
Proof.
  intros H. rewrite filter_nonZero_total.
  rewrite calculateTotalBalance_valuation. unfold valuation. f_equal.
  unfold balanceData. cbn [balances]. rewrite rows_filter.
  rewrite map_map. apply map_ext_in. intros b Hb.
  symmetry. apply usdtValue_contribution, H.
  apply filter_In in Hb. tauto.
Qed.

(** ** Nothing in orders *)








Lemma total_is_sum_of_rows_witness :
  calculateTotalBalance (List.filter nonZero Scenario.btc_usdt_balances)
                        Scenario.btc_prices
  = sum (map usdtValue
           (balanceData Scenario.btc_usdt_balances Scenario.btc_prices).(balances)).
Proof.
  apply (total_is_sum_of_rows Scenario.btc_usdt_balances Scenario.btc_prices).
  intros b [ <- | [ <- | [] ] ]; discriminate.
Defined.

End PriceFacts.

(* ===================================================================== *)
(** * The routes *)
(* ===================================================================== *)

Module HandlerFacts.


Import JsNumber Js Valuation ValuationSpec Exn Signer Health Handlers.
Import HandlersSpec FloatFacts ValuationFacts SignerFacts PriceFacts.
Local Open Scope string_scope.
Local Open Scope list_scope.

Ltac break_replies :=
  repeat match goal with
         | |- context [match ?x with Reply _ => _ | Rejected _ _ _ => _ end] =>
             destruct x
         | H : context [match ?x with Reply _ => _ | Rejected _ _ _ => _ end] |- _ =>
             destruct x
         | |- context [match acc_balances ?d with Some _ => _ | None => _ end] =>
             destruct (acc_balances d)
         | H : context [match acc_balances ?d with Some _ => _ | None => _ end] |- _ =>
             destruct (acc_balances d)
         end.

(** Signing the empty parameter set. *)
Lemma createSignedParams_empty (cfg : config) (w : world) :
  (configured cfg.(SECRET_KEY) = false
   /\ exists w', createSignedParams cfg [] w
                 = (Throw (Error "SECRET_KEY is not configured"), w')
                 /\ w'.(clock) = w.(clock))
  \/ (exists secret w',
        cfg.(SECRET_KEY) = Some secret /\ secret <> ""
        /\ configured cfg.(SECRET_KEY) = true
        /\ createSignedParams cfg [] w = (Ok (signedParams secret w.(clock)), w')
        /\ w'.(clock) = w.(clock)).
Proof.
  rewrite createSignedParams_run. unfold configured.
  destruct (SECRET_KEY cfg) as [ secret | ].
  - destruct (String.eqb secret "") eqn:E.
    + left. split; [ reflexivity | ]. eexists. split; reflexivity.
    + right. exists secret. eexists. apply String.eqb_neq in E.
      repeat split; try reflexivity. exact E.
  - left. split; [ reflexivity | ]. eexists. split; reflexivity.
Qed.

Lemma sign_empty (cfg : config) (w : world) :
  configured cfg.(SECRET_KEY) = true ->
  exists secret w',
    cfg.(SECRET_KEY) = Some secret /\ secret <> ""
    /\ sign cfg [] w = (Ok (signedParams secret w.(clock)), w')
    /\ w'.(clock) = w.(clock).
Proof.
  intros H. rewrite (sign_configured cfg [] w H).
  destruct (createSignedParams_empty cfg w)
    as [ [H' _] | (secret & w' & Hs & Hne & _ & Hrun & Hc) ].
  - congruence.
  - exists secret, w'. auto.
Qed.

(** ** When the exchange is contacted *)

(** The four routes and the credentials: the balance route and the earn
    route send no request exactly when the API key or the secret is
    missing or empty, and then neither reads the clock nor signs; the
    orders and fees routes send no request exactly when the secret is
    missing or empty, whatever the API key. *)
Theorem exchange_contacted (cfg : config) (ex : exchange) (w : world) :
  ((walletBalance cfg ex w).(requests) = []
     <-> configured cfg.(API_KEY) && configured cfg.(SECRET_KEY) = false)
  /\ ((earn cfg ex w).(requests) = []
     <-> configured cfg.(API_KEY) && configured cfg.(SECRET_KEY) = false)
  /\ ((walletOrders cfg ex w).(requests) = []
     <-> configured cfg.(SECRET_KEY) = false)
  /\ ((walletFees cfg ex w).(requests) = []
     <-> configured cfg.(SECRET_KEY) = false)
  /\ (configured cfg.(API_KEY) && configured cfg.(SECRET_KEY) = false ->
      (walletBalance cfg ex w).(after) = w /\ (earn cfg ex w).(after) = w).
Proof.
  unfold walletBalance, earn, walletOrders, walletFees.
  destruct (configured (API_KEY cfg)) eqn:Ha;
    destruct (configured (SECRET_KEY cfg)) eqn:Hs; cbn [negb orb andb].
  - destruct (sign_empty cfg w Hs) as (secret & w1 & _ & _ & -> & _).
    destruct (createSignedParams_empty cfg w)
      as [ [H' _] | (secret' & w' & _ & _ & _ & -> & _) ]; [ congruence | ].
    repeat split; try discriminate; break_replies; discriminate.
  - destruct (createSignedParams_empty cfg w)
      as [ (_ & w' & -> & _) | (secret' & w' & _ & _ & H' & _) ]; [ | congruence ].
    repeat split; auto.
  - destruct (createSignedParams_empty cfg w)
      as [ [H' _] | (secret' & w' & _ & _ & _ & -> & _) ]; [ congruence | ].
    repeat split; auto; try discriminate; break_replies; discriminate.
  - destruct (createSignedParams_empty cfg w)
      as [ (_ & w' & -> & _) | (secret' & w' & _ & _ & H' & _) ]; [ | congruence ].
    repeat split; auto.
Qed.

(** ** What is sent is signed *)

(** What the routes send: every request of the balance, orders, fees and
    earn routes is the public ticker request or a request that carries
    the configured API key and exactly two parameters, the clock reading
    as timestamp and the HMAC-SHA256 of [timestamp=<reading>] under the
    configured, non-empty secret as signature. *)
Theorem requests_well_signed (cfg : config) (ex : exchange) (w : world) (r : request) :
  In r ((walletBalance cfg ex w).(requests) ++ (walletOrders cfg ex w).(requests)
        ++ (walletFees cfg ex w).(requests) ++ (earn cfg ex w).(requests)) ->
  well_signed cfg w.(clock) r.
Proof.
  unfold walletBalance, earn, walletOrders, walletFees.
  destruct (createSignedParams_empty cfg w)
    as [ (Hs & w' & -> & _) | (secret & w' & Hsec & Hne & Hs & -> & _) ].
  - rewrite Hs, orb_true_r. cbn [negb orb requests app]. intros H.
    destruct (configured (API_KEY cfg)); cbn in H; repeat destruct H as [ <- | H ];
      try contradiction; exact I.
  - rewrite Hs, orb_false_r.
    destruct (sign_empty cfg w Hs) as (secret1 & w1 & Hsec1 & _ & -> & _).
    assert (secret1 = secret) by congruence. subst secret1.
    assert (Hok : forall k, k = API_KEY cfg ->
                  k = API_KEY cfg /\
                  exists s, SECRET_KEY cfg = Some s /\ s <> ""
                            /\ signedParams secret (clock w) = signedParams s (clock w))
      by (intros k ->; split; [ reflexivity | exists secret; auto ]).
    intros H.
    destruct (configured (API_KEY cfg)); cbn [negb requests] in H;
      break_replies;
      cbn in H; repeat destruct H as [ <- | H ]; try contradiction;
      try exact I; simpl; auto.
Qed.

Lemma requests_well_signed_witness :
  well_signed Scenario.test_credentials 1700000000000
    (GetOpenOrders Scenario.test_credentials.(API_KEY)
       (signedParams "NhqPtmdSJYdKjVHjA7PZj4Mge3R5YNiP1e3UZjInClVN65XAbvqqM6A7H5fATj0j"
                     1700000000000)).
Proof.
  apply (requests_well_signed Scenario.test_credentials
           {| ticker_price := Reply [];
              account := fun _ => Rejected None Undefined "";
              openOrders := fun _ => Reply [];
              simple_earn := fun _ => Rejected None Undefined "";
              elapsed := 250 |}
           (Scenario.at_time 1700000000000)).
  vm_compute. right. right. left. reflexivity.
Defined.

(** ** Status codes *)

Lemma balanceError_status (e : thrown) :
  In (balanceError e).(statusCode) [400; 401; 403; 500]%Z.
Proof.
  unfold balanceError.
  destruct (decide _); [ simpl; auto | ].
  destruct (decide _); [ simpl; auto | ].
  destruct (truthy _); simpl; auto.
Qed.

Lemma balanceError_not_report (e : thrown) :
  (balanceError e).(statusCode) <> 200%Z.
Proof.
  pose proof (balanceError_status e) as H. simpl in H.
  intros E. rewrite E in H. intuition discriminate.
Qed.

(** Status codes: the balance route answers 200, 400, 401, 403 or 500,
    and 200 exactly when both credentials are configured and the account
    request is answered with a body that has balances; the orders and
    fees routes answer 200 or 500; the earn route always answers 200,
    also when it reports an error. *)
Theorem response_statuses (cfg : config) (ex : exchange) (w : world) :
  In (walletBalance cfg ex w).(sent).(statusCode) [200; 400; 401; 403; 500]%Z
  /\ ((walletBalance cfg ex w).(sent).(statusCode) = 200%Z
      <-> exists secret balances d,
            configured cfg.(API_KEY) = true
            /\ cfg.(SECRET_KEY) = Some secret /\ secret <> ""
            /\ ex.(account) (signedParams secret w.(clock)) = Reply d
            /\ d.(acc_balances) = Some balances)
  /\ In (walletOrders cfg ex w).(sent).(statusCode) [200; 500]%Z
  /\ In (walletFees cfg ex w).(sent).(statusCode) [200; 500]%Z
  /\ (earn cfg ex w).(sent).(statusCode) = 200%Z.
Proof.
  assert (Herr : forall e, In (balanceError e).(statusCode) [200; 400; 401; 403; 500]%Z)
    by (intros e; right; apply balanceError_status).
  unfold walletBalance, earn, walletOrders, walletFees.
  destruct (createSignedParams_empty cfg w)
    as [ (Hs & w' & -> & _) | (secret & w' & Hsec & Hne & Hs & -> & _) ].
  - rewrite Hs, orb_true_r. cbn [negb sent statusCode res_status_json].
    split; [ simpl; auto 10 | split; [ | split; [ | split ] ] ];
      [ | simpl; auto | simpl; auto | reflexivity ].
    simpl. split; [ discriminate | ].
    intros (secret & _ & _ & _ & Hsec & Hne & _).
    unfold configured in Hs. rewrite Hsec in Hs.
    apply String.eqb_neq in Hne. rewrite Hne in Hs. discriminate.
  - rewrite Hs, orb_false_r.
    destruct (sign_empty cfg w Hs) as (secret1 & w1 & Hsec1 & _ & -> & _).
    assert (secret1 = secret) by congruence. subst secret1.
    split; [ | split; [ | split; [ | split ] ] ].
    + destruct (configured (API_KEY cfg)); cbn [negb]; break_replies;
        cbn [sent]; try apply Herr; simpl; auto 10.
    + destruct (configured (API_KEY cfg)) eqn:Ha; cbn [negb].
      * destruct (account ex (signedParams secret (clock w))) as [ d | st m msg ] eqn:Hacc.
        -- destruct (acc_balances d) as [ balances | ] eqn:Hb.
           ++ split; [ intros _ | reflexivity ].
              exists secret, balances, d. auto.
           ++ split; [ intros H; apply balanceError_not_report in H; contradiction | ].
              intros (s & bs & d' & _ & Hs' & _ & Hacc' & Hb').
              assert (s = secret) by congruence. subst s.
              rewrite Hacc in Hacc'. injection Hacc' as <-. congruence.
        -- split; [ intros H; apply balanceError_not_report in H; contradiction | ].
           intros (s & bs & d' & _ & Hs' & _ & Hacc' & _).
           assert (s = secret) by congruence. subst s.
           rewrite Hacc in Hacc'. discriminate.
      * simpl. split; [ discriminate | ].
        intros (_ & _ & _ & H & _). discriminate.
    + break_replies; simpl; auto.
    + break_replies; simpl; auto.
    + destruct (configured (API_KEY cfg)); cbn [negb]; break_replies; reflexivity.
Qed.




(** ** The price outage, end to end *)

(** The balance route when the ticker request fails: with both
    credentials configured and the account request answered, the route
    still answers 200; the reported total is the rounded sum of the USDT
    and BUSD amounts alone (every other asset counts 0), and btcValue is
    not set. *)
Theorem balance_route_survives_price_outage
        (cfg : config) (ex : exchange) (w : world) (secret : string)
        (d : AccountData) (bs : list Balance)
        (status : option Z) (msg : value) (message : string) :
  configured cfg.(API_KEY) = true ->
  cfg.(SECRET_KEY) = Some secret -> secret <> "" ->
  ex.(ticker_price) = Rejected status msg message ->
  ex.(account) (signedParams secret w.(clock)) = Reply d ->
  d.(acc_balances) = Some bs ->
  exists report,
    (walletBalance cfg ex w).(sent)
    = res_json (BalanceReport report (toISOString (w.(clock) + ex.(elapsed)))
                  d.(updateTime)
                  d.(permissions) d.(canTrade) d.(canWithdraw) d.(canDeposit))
    /\ report.(total)
       = round2 (sum (map amount (List.filter (fun b => counted b && pegged b) bs)))
    /\ report.(btcValue) = None.
Proof.
  intros Ha Hs Hne Ht Hacc Hb. unfold walletBalance.
  destruct (createSignedParams_empty cfg w)
    as [ [H' _] | (secret' & w' & Hs' & _ & Hc & -> & Hclock) ].
  - unfold configured in H'. rewrite Hs in H'.
    apply String.eqb_neq in Hne. rewrite Hne in H'. discriminate.
  - assert (secret' = secret) by congruence. subst secret'.
    rewrite Ha, Hc. cbn [negb orb]. cbv zeta. rewrite Hacc, Hb, Ht.
    unfold later. cbn [clock]. rewrite Hclock.
    eexists. split; [ reflexivity | ]. split.
    + unfold balanceData. cbn [total]. f_equal.
      rewrite filter_nonZero_total.
      apply (valuation_without_prices bs status msg message).
    + reflexivity.
Qed.

Lemma balance_route_survives_price_outage_witness :
  exists report,
    (walletBalance Scenario.test_credentials
       {| ticker_price := Rejected None Undefined "timeout";
          account := fun _ =>
            Reply (mkAccountData (Some Scenario.btc_usdt_balances) Undefined []
                                 Undefined Undefined Undefined 10 10 0 0);
          openOrders := fun _ => Reply [];
          simple_earn := fun _ => Rejected None Undefined "";
              elapsed := 250 |}
       (Scenario.at_time 1700000000000)).(sent).(body)
    = BalanceReport report "2023-11-14T22:13:20.250Z" Undefined []
                    Undefined Undefined Undefined
    /\ report.(total) = 100%float.
Proof.
  destruct (balance_route_survives_price_outage Scenario.test_credentials
              {| ticker_price := Rejected None Undefined "timeout";
                 account := fun _ =>
                   Reply (mkAccountData (Some Scenario.btc_usdt_balances) Undefined []
                                        Undefined Undefined Undefined 10 10 0 0);
                 openOrders := fun _ => Reply [];
                 simple_earn := fun _ => Rejected None Undefined "";
              elapsed := 250 |}
              (Scenario.at_time 1700000000000) _ _ Scenario.btc_usdt_balances
              None Undefined "timeout" eq_refl eq_refl ltac:(discriminate)
              eq_refl eq_refl eq_refl) as (report & Hsent & Htotal & _).
  exists report. split.
  - rewrite Hsent. reflexivity.
  - rewrite Htotal. vm_compute. reflexivity.
Defined.

(** ** Fees, from the exchange to the dashboard *)

Lemma fees_shown_exactly_all :
  forallb fees_shown_exactly (map Z.of_nat (seq 0 (Z.to_nat 10001))) = true.
Proof. vm_compute. reflexivity. Qed.

Lemma feesInfo_exact (c : Z) :
  (0 <= c <= 10000)%Z ->
  feesInfo (lit c 0 / 10000)%float = Text (fixed_digits 3 (10 * c)).
Proof.
  intros H. pose proof fees_shown_exactly_all as Hall.
  rewrite forallb_forall in Hall.
  specialize (Hall c). unfold fees_shown_exactly in Hall.
  destruct (feesInfo _) as [ s | x ].
  - f_equal. apply String.eqb_eq. apply Hall.
    apply in_map_iff. exists (Z.to_nat c). split; [ lia | ].
    apply in_seq. lia.
  - assert (false = true); [ | discriminate ].
    apply Hall. apply in_map_iff. exists (Z.to_nat c). split; [ lia | ].
    apply in_seq. lia.
Qed.

(** Fees, from the exchange to the dashboard: when the account request
    is answered with a taker commission of [c] units of 1/10000, for an
    integer [c] from 0 to 10000, the fees route answers 200 and the
    figure the dashboard prints from the answer is exactly [c / 100]
    with three fractional digits (15 is shown as 0.150): dividing by
    10000 on the server and multiplying by 100 on the page loses
    nothing. *)
Theorem fees_display
        (cfg : config) (ex : exchange) (w : world) (secret : string)
        (d : AccountData) (c : Z) :
  cfg.(SECRET_KEY) = Some secret -> secret <> "" ->
  ex.(account) (signedParams secret w.(clock)) = Reply d ->
  d.(takerCommission) = lit c 0 ->
  (0 <= c <= 10000)%Z ->
  exists maker taker buyer seller,
    (walletFees cfg ex w).(sent) = res_json (FeesReport maker taker buyer seller)
    /\ feesInfo taker = Text (fixed_digits 3 (10 * c)).
Proof.
  intros Hs Hne Hacc Ht Hc. unfold walletFees.
  destruct (createSignedParams_empty cfg w)
    as [ [H' _] | (secret' & w' & Hs' & _ & _ & -> & _) ].
  - unfold configured in H'. rewrite Hs in H'.
    apply String.eqb_neq in Hne. rewrite Hne in H'. discriminate.
  - assert (secret' = secret) by congruence. subst secret'.
    rewrite Hacc. do 4 eexists. split; [ reflexivity | ].
    rewrite Ht. apply feesInfo_exact, Hc.
Qed.

Lemma fees_display_witness :
  exists maker taker buyer seller,
    (walletFees Scenario.test_credentials
       {| ticker_price := Reply [];
          account := fun _ =>
            Reply (mkAccountData None Undefined [] Undefined Undefined Undefined
                                 10 15 0 0);
          openOrders := fun _ => Reply [];
          simple_earn := fun _ => Rejected None Undefined "";
          elapsed := 250 |}
       (Scenario.at_time 1700000000000)).(sent)
    = res_json (FeesReport maker taker buyer seller)
    /\ feesInfo taker = Text "0.150".
Proof.
  exact (fees_display Scenario.test_credentials
           {| ticker_price := Reply [];
              account := fun _ =>
                Reply (mkAccountData None Undefined [] Undefined Undefined Undefined
                                     10 15 0 0);
              openOrders := fun _ => Reply [];
              simple_earn := fun _ => Rejected None Undefined "";
              elapsed := 250 |}
           (Scenario.at_time 1700000000000) _ _ 15
           eq_refl ltac:(discriminate) eq_refl eq_refl ltac:(lia)).
Defined.

End HandlerFacts.

(* ===================================================================== *)
(** * The form of the signature *)
(* ===================================================================== *)

Module DigestFacts.


Import JsNumber Exn Signer Sha256 HandlersSpec SignerFacts.
Local Open Scope Z_scope.

(** ** The shape of a digest *)

Lemma length_compress (h block : list Z) :
  length h = 8%nat -> length (compress h block) = 8%nat.
Proof.
  intros H. unfold compress. rewrite length_map, length_combine, H.
  reflexivity.
Qed.

Lemma length_fold_compress (blocks : list (list Z)) :
  forall h, length h = 8%nat -> length (fold_left compress blocks h) = 8%nat.
Proof.
  induction blocks as [ | b blocks IH ]; intros h H; simpl; [ exact H | ].
  apply IH, length_compress, H.
Qed.

Lemma length_be_bytes (n : nat) (x : Z) : length (be_bytes n x) = n.
Proof. induction n as [ | n IH ]; simpl; [ reflexivity | rewrite IH; reflexivity ]. Qed.

Lemma be_bytes_range (n : nat) (x b : Z) :
  In b (be_bytes n x) -> 0 <= b < 256.
Proof.
  induction n as [ | n IH ]; simpl; [ tauto | ].
  intros [ <- | H ]; [ apply Z.mod_pos_bound; lia | apply IH, H ].
Qed.

Lemma length_flat_map_be_bytes (h : list Z) :
  length (flat_map (be_bytes 4) h) = (4 * length h)%nat.
Proof.
  induction h as [ | x h IH ]; [ reflexivity | ].
  cbn [flat_map]. rewrite length_app, length_be_bytes, IH. simpl. lia.
Qed.

Lemma sha256_length (msg : list Z) : length (sha256 msg) = 32%nat.
Proof.
  unfold sha256. rewrite length_flat_map_be_bytes.
  rewrite length_fold_compress; reflexivity.
Qed.

Lemma sha256_range (msg : list Z) (b : Z) : In b (sha256 msg) -> 0 <= b < 256.
Proof.
  unfold sha256. rewrite in_flat_map. intros (x & _ & H).
  apply be_bytes_range in H. exact H.
Qed.

Lemma hex_digit_lower (d : Z) :
  0 <= d < 16 -> is_lower_hex (hex_digit d) = true.
Proof.
  intros H.
  assert (Hd : In d (map Z.of_nat (seq 0 16))).
  { apply in_map_iff. exists (Z.to_nat d). split; [ lia | apply in_seq; lia ]. }
  assert (Hall : forallb (fun d => is_lower_hex (hex_digit d))
                         (map Z.of_nat (seq 0 16)) = true)
    by (vm_compute; reflexivity).
  rewrite forallb_forall in Hall. apply Hall, Hd.
Qed.

Lemma hex_shape (bs : list Z) :
  (forall b, In b bs -> 0 <= b < 256) ->
  String.length (hex bs) = (2 * length bs)%nat
  /\ forallb is_lower_hex (list_ascii_of_string (hex bs)) = true.
Proof.
  unfold hex. rewrite list_ascii_of_string_of_list_ascii.
  induction bs as [ | b bs IH ]; intros H; [ split; reflexivity | ].
  destruct IH as [IH1 IH2]; [ intros b' Hb'; apply H; right; exact Hb' | ].
  assert (Hb : 0 <= b < 256) by (apply H; left; reflexivity).
  split.
  - cbn [flat_map app string_of_list_ascii String.length length].
    rewrite IH1. lia.
  - cbn [flat_map app forallb]. rewrite IH2.
    rewrite !hex_digit_lower; [ reflexivity | | ].
    + apply Z.mod_pos_bound. lia.
    + split; [ apply Z.div_pos; lia | apply Z.div_lt_upper_bound; lia ].
Qed.

Lemma hex_sha256_shape (msg : list Z) :
  String.length (hex (sha256 msg)) = 64%nat
  /\ forallb is_lower_hex (list_ascii_of_string (hex (sha256 msg))) = true.
Proof.
  destruct (hex_shape (sha256 msg)) as [H1 H2].
  - intros b. apply sha256_range.
  - rewrite sha256_length in H1. split; assumption.
Qed.

Lemma signature_of_shape (secret : string) (query : object) :
  String.length (signature_of secret query) = 64%nat
  /\ forallb is_lower_hex (list_ascii_of_string (signature_of secret query)) = true.
Proof.
  unfold signature_of, hmac_sha256. cbv zeta. apply hex_sha256_shape.
Qed.

(** createSignedParams, the form of the signature: whenever it returns,
    for any parameters, the signature property of the result is a text
    of exactly 64 characters, each a digit or a lowercase letter a-f. *)
Theorem signature_is_64_hex_digits
        (cfg : config) (params signed : object) (w : world) :
  fst (createSignedParams cfg params w) = Ok signed ->
  exists sig,
    get "signature" signed = Some (PStr sig)
    /\ String.length sig = 64%nat
    /\ forallb is_lower_hex (list_ascii_of_string sig) = true.
Proof.
  rewrite createSignedParams_run.
  destruct (SECRET_KEY cfg) as [ secret | ]; [ | discriminate ].
  destruct (String.eqb secret ""); [ discriminate | ].
  cbn [fst]. intros [= <-].
  eexists. split; [ apply get_set_eq | apply signature_of_shape ].
Qed.

Lemma signature_is_64_hex_digits_witness :
  exists sig,
    get "signature"
      [ ("symbol", PStr "BTCUSDT"); ("timestamp", PNum 1700000000000);
        ("signature",
         PStr "a3569fd59e817dd9dad22a7a370950ff1919b709029f22a6963b3f0f7a822cbe") ]%string
    = Some (PStr sig)
    /\ String.length sig = 64%nat
    /\ forallb is_lower_hex (list_ascii_of_string sig) = true.
Proof.
  apply (signature_is_64_hex_digits Scenario.test_credentials
           [("symbol", PStr "BTCUSDT")]%string _ (Scenario.at_time 1700000000000)).
  vm_compute. reflexivity.
Defined.

End DigestFacts.

(* ===================================================================== *)
(** * What the debugging health route discloses *)
(* ===================================================================== *)

Module HealthSecrecy.


Import Exn Health HandlersSpec.
Local Open Scope string_scope.

Lemma configured_length (s1 s2 : string) :
  String.length s1 = String.length s2 ->
  configured (Some s1) = configured (Some s2).
Proof.
  destruct s1, s2; simpl; intros H; try discriminate; reflexivity.
Qed.

(** The debug output tells the length of the secret and nothing else of
    it. *)
Lemma getenv_app (name k v : string) (env1 env2 : environment) :
  getenv name (env1 ++ (k, v) :: env2)
  = match getenv name env1 with
    | Some x => Some x
    | None => if String.eqb k name then Some v else getenv name env2
    end.
Proof.
  induction env1 as [ | [k' v'] env1 IH ]; simpl; [ reflexivity | ].
  destruct (String.eqb k' name); [ reflexivity | exact IH ].
Qed.

(** The debugging health route and the secret: two environments that
    differ only in the value of BINANCE_SECRET_KEY, both values ASCII
    and of the same length, get the same response: of the secret the
    route discloses whether it is set and how long it is, nothing
    else. *)
Theorem health_debug_hides_secret
        (env1 env2 : environment) (s1 s2 : string) (now : Z) :
  is_ascii s1 = true -> is_ascii s2 = true ->
  String.length s1 = String.length s2 ->
  getenv "BINANCE_SECRET_KEY" env1 = None ->
  health_debug (env1 ++ ("BINANCE_SECRET_KEY", s1) :: env2) now
  = health_debug (env1 ++ ("BINANCE_SECRET_KEY", s2) :: env2) now.
Proof.
  intros _ _ Hlen Hnone. unfold health_debug.
  rewrite !getenv_app, Hnone. cbn [String.eqb Ascii.eqb Bool.eqb].
  rewrite !map_app. cbn [map fst].
  rewrite (configured_length s1 s2 Hlen).
  unfold length_of. rewrite Hlen. reflexivity.
Qed.

Lemma health_debug_hides_secret_witness :
  health_debug [("BINANCE_SECRET_KEY", "first-secret")] 0
  = health_debug [("BINANCE_SECRET_KEY", "other_secret")] 0.
Proof.
  exact (health_debug_hides_secret [] [] "first-secret" "other_secret" 0
           eq_refl eq_refl eq_refl eq_refl).
Defined.

End HealthSecrecy.

(* ===================================================================== *)
(** * The query string determines the parameters *)
(* ===================================================================== *)

Module UrlFacts.


Import Signer UrlSpec.
Local Open Scope string_scope.
Local Open Scope list_scope.

Lemma decode_encode_byte (c : ascii) (rest : list ascii) :
  decode (encode_byte c ++ rest) = c :: decode rest.
Proof.
  destruct c as [ [ | ] [ | ] [ | ] [ | ] [ | ] [ | ] [ | ] [ | ] ]; reflexivity.
Qed.

Lemma decode_encode (l : list ascii) :
  decode (flat_map encode_byte l) = l.
Proof.
  induction l as [ | c l IH ]; [ reflexivity | ].
  cbn [flat_map]. rewrite decode_encode_byte, IH. reflexivity.
Qed.

Lemma urlencode_injective (s1 s2 : string) :
  urlencode s1 = urlencode s2 -> s1 = s2.
Proof.
  unfold urlencode. intros H.
  apply (f_equal list_ascii_of_string) in H.
  rewrite !list_ascii_of_string_of_list_ascii in H.
  apply (f_equal decode) in H. rewrite !decode_encode in H.
  rewrite <- (string_of_list_ascii_of_string s1),
          <- (string_of_list_ascii_of_string s2), H.
  reflexivity.
Qed.

Lemma encode_byte_safe (c : ascii) :
  existsb (fun a => Ascii.eqb a "&") (encode_byte c) = false
  /\ existsb (fun a => Ascii.eqb a "=") (encode_byte c) = false.
Proof.
  destruct c as [ [ | ] [ | ] [ | ] [ | ] [ | ] [ | ] [ | ] [ | ] ];
    split; reflexivity.
Qed.

Lemma occurs_string_of_list (c : ascii) (l : list ascii) :
  occurs c (string_of_list_ascii l) = existsb (fun a => Ascii.eqb a c) l.
Proof. induction l as [ | a l IH ]; simpl; [ | rewrite IH ]; reflexivity. Qed.

Lemma urlencode_safe (s : string) :
  occurs "&" (urlencode s) = false /\ occurs "=" (urlencode s) = false.
Proof.
  unfold urlencode. rewrite !occurs_string_of_list.
  induction (list_ascii_of_string s) as [ | c l [IH1 IH2] ]; [ split; reflexivity | ].
  cbn [flat_map]. rewrite !existsb_app, IH1, IH2, !orb_false_r.
  apply encode_byte_safe.
Qed.

Lemma occurs_append (c : ascii) (s1 s2 : string) :
  occurs c (String.append s1 s2) = occurs c s1 || occurs c s2.
Proof.
  induction s1 as [ | a s1 IH ]; simpl; [ reflexivity | ].
  rewrite IH, orb_assoc. reflexivity.
Qed.

Lemma split_at_first (c : ascii) (s1 s2 : string) :
  occurs c s1 = false ->
  split_at c (String.append s1 (String c s2)) = Some (s1, s2).
Proof.
  induction s1 as [ | a s1 IH ]; simpl.
  - rewrite Ascii.eqb_refl. reflexivity.
  - intros H. apply orb_false_iff in H as [H1 H2].
    rewrite H1, (IH H2). reflexivity.
Qed.

Lemma split_at_none (c : ascii) (s : string) :
  occurs c s = false -> split_at c s = None.
Proof.
  induction s as [ | a s IH ]; simpl; [ reflexivity | ].
  intros H. apply orb_false_iff in H as [H1 H2].
  rewrite H1, (IH H2). reflexivity.
Qed.

Lemma pair_text_no_amp (kv : string * pvalue) : occurs "&" (pair_text kv) = false.
Proof.
  unfold pair_text. rewrite !occurs_append.
  destruct (urlencode_safe (fst kv)) as [-> _].
  destruct (urlencode_safe (ToString (snd kv))) as [-> _]. reflexivity.
Qed.

Lemma pair_text_injective (kv1 kv2 : string * pvalue) :
  pair_text kv1 = pair_text kv2 -> entry_text kv1 = entry_text kv2.
Proof.
  unfold pair_text, entry_text. intros H.
  apply (f_equal (split_at "=")) in H.
  change (String.append "=" (urlencode (ToString (snd kv1))))
    with (String "="%char (urlencode (ToString (snd kv1)))) in H.
  change (String.append "=" (urlencode (ToString (snd kv2))))
    with (String "="%char (urlencode (ToString (snd kv2)))) in H.
  rewrite !split_at_first in H by apply urlencode_safe.
  injection H as H1 H2.
  apply urlencode_injective in H1, H2. congruence.
Qed.

Lemma concat_cons (p : string) (ps : list string) :
  String.concat "&" (p :: ps)
  = match ps with
    | [] => p
    | _ :: _ => String.append p (String "&" (String.concat "&" ps))
    end.
Proof. destruct ps; reflexivity. Qed.

Lemma split_query (kv : string * pvalue) (o : object) :
  split_at "&" (String.concat "&" (map pair_text (kv :: o)))
  = match o with
    | [] => None
    | _ :: _ => Some (pair_text kv, String.concat "&" (map pair_text o))
    end.
Proof.
  cbn [map]. rewrite concat_cons. destruct o as [ | kv' o ].
  - apply split_at_none, pair_text_no_amp.
  - cbn [map]. apply split_at_first, pair_text_no_amp.
Qed.

Lemma pair_text_nonempty (kv : string * pvalue) (rest : string) :
  String.append (pair_text kv) rest <> EmptyString.
Proof.
  unfold pair_text. destruct (urlencode (fst kv)); discriminate.
Qed.

Lemma query_nonempty (kv : string * pvalue) (o : object) :
  String.concat "&" (map pair_text (kv :: o)) <> EmptyString.
Proof.
  cbn [map]. rewrite concat_cons. destruct (map pair_text o).
  - unfold pair_text. destruct (urlencode (fst kv)); discriminate.
  - apply pair_text_nonempty.
Qed.

(** The signed text is unambiguous: two parameter objects with the same
    query string have the same property names and the same value texts,
    in the same order; no two different requests are signed as the same
    text. *)
Theorem query_string_determines_parameters (o1 o2 : object) :
  URLSearchParams_toString o1 = URLSearchParams_toString o2 ->
  map entry_text o1 = map entry_text o2.
Proof.
  unfold URLSearchParams_toString.
  change (fun kv : string * pvalue =>
            (urlencode (fst kv) ++ "=" ++ urlencode (ToString (snd kv)))%string)
    with pair_text.
  revert o2. induction o1 as [ | kv1 o1 IH ]; intros [ | kv2 o2 ] H.
  - reflexivity.
  - symmetry in H. apply query_nonempty in H. contradiction.
  - apply query_nonempty in H. contradiction.
  - pose proof (f_equal (split_at "&") H) as Hs.
    rewrite !split_query in Hs.
    destruct o1 as [ | kv1' o1 ]; destruct o2 as [ | kv2' o2 ]; try discriminate.
    + cbn in H. cbn. f_equal. apply pair_text_injective. exact H.
    + injection Hs as H1 H2. cbn [map]. f_equal.
      * apply pair_text_injective, H1.
      * apply (IH (kv2' :: o2)), H2.
Qed.

Lemma query_string_determines_parameters_witness :
  map entry_text [("recvWindow", PNum 5000)] = map entry_text [("recvWindow", PStr "5000")].
Proof.
  apply (query_string_determines_parameters
           [("recvWindow", PNum 5000)] [("recvWindow", PStr "5000")]).
  vm_compute. reflexivity.
Defined.

End UrlFacts.

(* ===================================================================== *)
(** * Comparing positive numbers *)
(* ===================================================================== *)

Module FloatOrderFacts.

Import JsNumber FloatOrder FloatFacts ValuationFacts.
Local Open Scope Z_scope.

Lemma pos_finite_spec (x : float) :
  pos_finite x = true -> exists m e, Prim2SF x = S754_finite false m e.
Proof.
  unfold pos_finite.
  destruct (Prim2SF x) as [ s | s | | [ | ] m e ]; try discriminate.
  intros _. exists m, e. reflexivity.
Qed.

(** The mantissa of a finite number is below [2^53], and at least
    [2^52] unless the exponent is the least one. *)
Lemma finite_canonical (x : float) (s : bool) (m : positive) (e : Z) :
  Prim2SF x = S754_finite s m e ->
  emin <= e /\ Z.pos m < 2 ^ 53 /\ (emin < e -> 2 ^ 52 <= Z.pos m).
Proof.
  intros H. pose proof (Prim2SF_valid x) as Hv. rewrite H in Hv.
  split; [ exact (valid_emin s m e Hv) | ].
  split; [ exact (finite_mantissa_bound x s m e H) | ].
  intros He. simpl in Hv. unfold bounded, canonical_mantissa, fexp in Hv.
  apply andb_prop in Hv as [Hv _]. apply Z.eqb_eq in Hv.
  assert (Hd : Z.pos (digits2_pos m) = prec) by (unfold emin in *; lia).
  pose proof (digits2_pos_lower m) as Hl. rewrite Hd in Hl. exact Hl.
Qed.

Lemma ltb_rank (x y : float) :
  pos_finite x = true -> pos_finite y = true ->
  (x <? y)%float = (rank x <? rank y).
Proof.
  intros Hx Hy. apply pos_finite_spec in Hx as (mx & ex & Ex).
  apply pos_finite_spec in Hy as (my & ey & Ey).
  destruct (finite_canonical x _ _ _ Ex) as (_ & Hmx & _).
  destruct (finite_canonical y _ _ _ Ey) as (_ & Hmy & _).
  rewrite FloatAxioms.ltb_spec. unfold rank. rewrite Ex, Ey.
  unfold SFltb, SFcompare.
  change (2 ^ 53) with 9007199254740992 in *.
  change (PosDef.Pos.compare_cont Eq mx my) with (Pos.compare mx my).
  destruct (Z.compare_spec ex ey) as [ -> | H | H ].
  - destruct (Pos.compare_spec mx my) as [ -> | H | H ]; symmetry.
    + apply Z.ltb_irrefl.
    + apply Z.ltb_lt. lia.
    + apply Z.ltb_ge. lia.
  - symmetry. apply Z.ltb_lt. lia.
  - symmetry. apply Z.ltb_ge. lia.
Qed.

Lemma leb_rank (x y : float) :
  pos_finite x = true -> pos_finite y = true ->
  (x <=? y)%float = (rank x <=? rank y).
Proof.
  intros Hx Hy. apply pos_finite_spec in Hx as (mx & ex & Ex).
  apply pos_finite_spec in Hy as (my & ey & Ey).
  destruct (finite_canonical x _ _ _ Ex) as (_ & Hmx & _).
  destruct (finite_canonical y _ _ _ Ey) as (_ & Hmy & _).
  rewrite FloatAxioms.leb_spec. unfold rank. rewrite Ex, Ey.
  unfold SFleb, SFcompare.
  change (2 ^ 53) with 9007199254740992 in *.
  change (PosDef.Pos.compare_cont Eq mx my) with (Pos.compare mx my).
  destruct (Z.compare_spec ex ey) as [ -> | H | H ].
  - destruct (Pos.compare_spec mx my) as [ -> | H | H ]; symmetry.
    + apply Z.leb_refl.
    + apply Z.leb_le. lia.
    + apply Z.leb_gt. lia.
  - symmetry. apply Z.leb_le. lia.
  - symmetry. apply Z.leb_gt. lia.
Qed.

(** ** The sign of a difference *)

Lemma iter_xO (d m : positive) :
  Z.pos (PosDef.Pos.iter xO m d) = Z.pos m * 2 ^ Z.pos d.
Proof.
  change (PosDef.Pos.iter xO m d) with (Pos.iter xO m d).
  induction d as [ | d IH ] using Pos.peano_ind.
  - simpl. lia.
  - rewrite Pos.iter_succ, Pos2Z.inj_xO, IH, Pos2Z.inj_succ, Z.pow_succ_r by lia.
    lia.
Qed.

Lemma shl_align_value (m : positive) (e ez : Z) :
  ez <= e -> Z.pos (fst (shl_align m e ez)) = Z.pos m * 2 ^ (e - ez).
Proof.
  intros H. unfold shl_align.
  destruct (ez - e) as [ | d | d ] eqn:E; simpl fst.
  - replace (e - ez) with 0 by lia. simpl. lia.
  - lia.
  - rewrite iter_xO. f_equal. f_equal. lia.
Qed.

Lemma binary_round_aux_positive (m e : Z) (l : location) :
  0 < m -> emin <= e ->
  positive_sf (binary_round_aux prec emax false m e l) = true.
Proof.
  intros Hm He. unfold binary_round_aux.
  destruct (shr_fexp_pos m e l Hm He) as [H1 H2].
  destruct (shr_fexp prec emax m e l) as [r1 e1]. simpl in H1, H2.
  pose proof (round_nearest_even_ge (shr_m r1) (loc_of_shr_record r1)) as Hge.
  destruct (shr_fexp_pos (round_nearest_even (shr_m r1) (loc_of_shr_record r1))
              e1 loc_Exact ltac:(lia) H2) as [H3 _].
  destruct (shr_fexp prec emax _ e1 loc_Exact) as [r2 e2]. simpl in H3.
  destruct (shr_m r2); try lia.
  destruct (e2 <=? emax - prec); reflexivity.
Qed.

Lemma binary_round_positive (m : positive) (e : Z) :
  emin <= e -> positive_sf (binary_round prec emax false m e) = true.
Proof.
  intros He. unfold binary_round, shl_align.
  remember (fexp prec emax (Z.pos (digits2_pos m) + e)) as fe eqn:Hfe.
  assert (emin <= fe) by (subst fe; unfold fexp; lia).
  destruct (fe - e); apply binary_round_aux_positive; lia.
Qed.

Lemma aligned_order (mx my : positive) (ex ey : Z) :
  Z.pos mx < 2 ^ 53 -> Z.pos my < 2 ^ 53 ->
  (ex < ey -> 2 ^ 52 <= Z.pos my) -> (ey < ex -> 2 ^ 52 <= Z.pos mx) ->
  let ez := Z.min ex ey in
  (Z.pos mx * 2 ^ (ex - ez) < Z.pos my * 2 ^ (ey - ez)
   <-> ex * 2 ^ 53 + Z.pos mx < ey * 2 ^ 53 + Z.pos my)
  /\ (Z.pos mx * 2 ^ (ex - ez) = Z.pos my * 2 ^ (ey - ez)
      -> ex * 2 ^ 53 + Z.pos mx = ey * 2 ^ 53 + Z.pos my).
Proof.
  intros Hx Hy Hxy Hyx ez. subst ez.
  change (2 ^ 53) with 9007199254740992 in *.
  change (2 ^ 52) with 4503599627370496 in *.
  destruct (Z.lt_trichotomy ex ey) as [ H | [ -> | H ] ].
  - rewrite Z.min_l by lia. rewrite Z.sub_diag. simpl (2 ^ 0).
    assert (Hp : 2 ^ 1 <= 2 ^ (ey - ex)) by (apply Z.pow_le_mono_r; lia).
    simpl (2 ^ 1) in Hp. specialize (Hxy H). nia.
  - rewrite Z.min_id, Z.sub_diag. simpl (2 ^ 0). lia.
  - rewrite Z.min_r by lia. rewrite Z.sub_diag. simpl (2 ^ 0).
    assert (Hp : 2 ^ 1 <= 2 ^ (ex - ey)) by (apply Z.pow_le_mono_r; lia).
    simpl (2 ^ 1) in Hp. specialize (Hyx H). nia.
Qed.

(** [y - x] is positive exactly when [x] is below [y]. *)
Lemma sub_rank (x y : float) :
  pos_finite x = true -> pos_finite y = true ->
  (0 <? y - x)%float = (rank x <? rank y).
Proof.
  intros Hx Hy. apply pos_finite_spec in Hx as (mx & ex & Ex).
  apply pos_finite_spec in Hy as (my & ey & Ey).
  destruct (finite_canonical x _ _ _ Ex) as (Hex & Hmx & Hnx).
  destruct (finite_canonical y _ _ _ Ey) as (Hey & Hmy & Hny).
  rewrite ltb_zero, FloatAxioms.sub_spec. unfold rank. rewrite Ex, Ey.
  unfold SF64sub, SFsub. cbv zeta. cbn [cond_Zopp].
  change (IntDef.Z.min ey ex) with (Z.min ey ex).
  rewrite !shl_align_value by lia.
  destruct (aligned_order mx my ex ey Hmx Hmy) as [Hlt Heq];
    [ intros; apply Hny; lia | intros; apply Hnx; lia | ].
  cbv zeta in Hlt, Heq. rewrite (Z.min_comm ex ey) in Hlt, Heq.
  unfold binary_normalize.
  destruct (Z.pos my * 2 ^ (ey - Z.min ey ex)
            - Z.pos mx * 2 ^ (ex - Z.min ey ex)) as [ | d | d ] eqn:D.
  - simpl. symmetry. apply Z.ltb_ge. lia.
  - rewrite binary_round_positive by lia. symmetry. apply Z.ltb_lt. lia.
  - rewrite binary_round_sign. symmetry. apply Z.ltb_ge. lia.
Qed.

End FloatOrderFacts.

(* ===================================================================== *)
(** * The asset list of the dashboard *)
(* ===================================================================== *)

Module DashboardFacts.

Import JsNumber Js Valuation Handlers Dashboard FloatOrder.
Import FloatFacts FloatOrderFacts.
Local Open Scope list_scope.

(** ** Sorting by insertion *)

Section Insertion.

Context {A : Type} (comparefn : A -> A -> float).

Lemma insert_In (x z : A) (l : list A) :
  In z (insert comparefn x l) <-> z = x \/ In z l.
Proof.
  induction l as [ | y l IH ]; simpl.
  - intuition congruence.
  - destruct (0 <? comparefn y x)%float; simpl; [ intuition congruence | ].
    rewrite IH. intuition congruence.
Qed.

Lemma fold_insert_In (z : A) (l : list A) :
  forall acc,
    In z (fold_left (fun sorted x => insert comparefn x sorted) l acc)
    <-> In z l \/ In z acc.
Proof.
  induction l as [ | x l IH ]; intros acc; simpl.
  - tauto.
  - rewrite IH, insert_In. intuition congruence.
Qed.

Lemma sort_In (z : A) (l : list A) : In z (sort comparefn l) <-> In z l.
Proof. unfold sort. rewrite fold_insert_In. simpl. tauto. Qed.

(** The comparison function follows a key on the elements that satisfy
    [P]: the element of the greater key goes first. *)
Context (P : A -> Prop) (key : A -> Z).
Hypothesis comparefn_key :
  forall a b, P a -> P b -> (0 <? comparefn a b)%float = (key a <? key b)%Z.

Local Abbreviation descending := (FloatOrder.descending key).

Lemma insert_sorted (x : A) (l : list A) :
  P x -> Forall P l -> StronglySorted descending l ->
  StronglySorted descending (insert comparefn x l).
Proof using comparefn_key.
  intros Hx. induction l as [ | y l IH ]; intros HP Hs; simpl.
  - constructor; constructor.
  - apply Forall_cons_iff in HP as [Hy HP].
    apply StronglySorted_inv in Hs as [Hs Hall].
    rewrite (comparefn_key y x Hy Hx).
    destruct (Z.ltb_spec (key y) (key x)) as [ Hlt | Hge ].
    + constructor; [ constructor; assumption | ].
      constructor; [ unfold descending; lia | ].
      apply List.Forall_forall. intros z Hz. rewrite List.Forall_forall in Hall.
      specialize (Hall z Hz). unfold descending in *. lia.
    + constructor; [ apply IH; assumption | ].
      apply List.Forall_forall. intros z Hz. apply insert_In in Hz as [ -> | Hz ].
      * exact Hge.
      * rewrite List.Forall_forall in Hall. apply Hall, Hz.
Qed.

Lemma fold_insert_sorted (l : list A) :
  forall acc,
    Forall P l -> Forall P acc -> StronglySorted descending acc ->
    StronglySorted descending
      (fold_left (fun sorted x => insert comparefn x sorted) l acc).
Proof using comparefn_key.
  induction l as [ | x l IH ]; intros acc Hl Hacc Hs; simpl; [ exact Hs | ].
  apply Forall_cons_iff in Hl as [Hx Hl].
  apply IH; [ exact Hl | | apply insert_sorted; assumption ].
  apply List.Forall_forall. intros z Hz. apply insert_In in Hz as [ -> | Hz ].
  - exact Hx.
  - rewrite List.Forall_forall in Hacc. apply Hacc, Hz.
Qed.

Lemma sort_sorted (l : list A) :
  Forall P l -> StronglySorted descending (sort comparefn l).
Proof using comparefn_key.
  intros H. apply fold_insert_sorted; [ exact H | constructor | constructor ].
Qed.

End Insertion.

(** ** The first elements of a sorted list *)

Section Prefix.

Context {A : Type} (R : A -> A -> Prop).

Lemma firstn_In (n : nat) (l : list A) (z : A) :
  In z (firstn n l) -> In z l.
Proof.
  intros H. rewrite <- (firstn_skipn n l). apply in_or_app. left. exact H.
Qed.

Lemma skipn_In (n : nat) (l : list A) (z : A) :
  In z (skipn n l) -> In z l.
Proof.
  intros H. rewrite <- (firstn_skipn n l). apply in_or_app. right. exact H.
Qed.

Lemma firstn_sorted (n : nat) (l : list A) :
  StronglySorted R l -> StronglySorted R (firstn n l).
Proof.
  revert l. induction n as [ | n IH ]; intros [ | x l ] Hs; simpl;
    try constructor.
  - apply StronglySorted_inv in Hs as [Hs _]. apply IH, Hs.
  - apply StronglySorted_inv in Hs as [_ Hall].
    apply List.Forall_forall. intros z Hz. rewrite List.Forall_forall in Hall.
    apply Hall. exact (firstn_In n l z Hz).
Qed.

Lemma firstn_before_skipn (n : nat) (l : list A) (s r : A) :
  StronglySorted R l -> In s (firstn n l) -> In r (skipn n l) -> R s r.
Proof.
  revert l. induction n as [ | n IH ]; intros [ | x l ] Hs Hin Hr; simpl in *;
    try contradiction.
  apply StronglySorted_inv in Hs as [Hs Hall].
  destruct Hin as [ <- | Hin ].
  - rewrite List.Forall_forall in Hall. apply Hall. exact (skipn_In n l r Hr).
  - apply (IH l); assumption.
Qed.

Lemma skipn_In_length (n : nat) (l : list A) (r : A) :
  In r (skipn n l) -> length (firstn n l) = n.
Proof.
  revert l. induction n as [ | n IH ]; intros [ | x l ] Hr; simpl in *;
    try contradiction; try reflexivity.
  f_equal. apply IH, Hr.
Qed.

Lemma sorted_impl (Q : A -> Prop) (R' : A -> A -> Prop) (l : list A) :
  (forall a b, Q a -> Q b -> R a b -> R' a b) ->
  Forall Q l -> StronglySorted R l -> StronglySorted R' l.
Proof.
  intros H. induction l as [ | x l IH ]; intros HQ Hs; constructor.
  - apply Forall_cons_iff in HQ as [_ HQ].
    apply StronglySorted_inv in Hs as [Hs _]. apply IH; assumption.
  - apply Forall_cons_iff in HQ as [Hx HQ].
    apply StronglySorted_inv in Hs as [_ Hall].
    rewrite List.Forall_forall in *. intros z Hz. apply H; auto.
Qed.

End Prefix.

(** ** The numbers the page compares *)

Lemma is_zero_finite (x : float) :
  PrimFloat.is_zero x = true -> exists s, Prim2SF x = S754_zero s.
Proof.
  unfold PrimFloat.is_zero. rewrite FloatAxioms.eqb_spec.
  change (Prim2SF zero) with (S754_zero false).
  destruct (Prim2SF x) as [ s | [ | ] | | [ | ] m e ]; try discriminate.
  intros _. exists s. reflexivity.
Qed.

Lemma one_sf : Prim2SF 1 = S754_finite false 4503599627370496 (-52).
Proof. reflexivity. Qed.

(** Above 1 and finite: a positive finite number, which the JSON body
    carries unchanged. *)
Lemma worth_pos_finite (x : float) :
  (1 <? x)%float = true -> PrimFloat.is_finite x = true -> pos_finite x = true.
Proof.
  unfold PrimFloat.is_finite, PrimFloat.is_infinity, pos_finite.
  rewrite FloatAxioms.ltb_spec, one_sf, negb_true_iff, orb_false_iff.
  rewrite FloatAxioms.eqb_spec, FloatAxioms.abs_spec.
  change (Prim2SF infinity) with (S754_infinity false).
  intros H [_ Hi].
  destruct (Prim2SF x) as [ s | [ | ] | | [ | ] m e ];
    try discriminate; reflexivity.
Qed.

Lemma worth_json (x : float) :
  (1 <? json_number x)%float = true ->
  json_number x = x
  /\ (1 <? x)%float = true /\ PrimFloat.is_finite x = true.
Proof.
  unfold json_number.
  destruct (PrimFloat.is_finite x && negb (PrimFloat.is_zero x)) eqn:E.
  - apply andb_prop in E as [Ef _]. auto.
  - intros H. vm_compute in H. discriminate.
Qed.

Lemma json_worth (x : float) :
  (1 <? x)%float = true -> PrimFloat.is_finite x = true -> json_number x = x.
Proof.
  intros H Hf. unfold json_number. rewrite Hf.
  destruct (PrimFloat.is_zero x) eqn:Ez; [ | reflexivity ].
  apply is_zero_finite in Ez as [s Es].
  rewrite FloatAxioms.ltb_spec, one_sf, Es in H. discriminate.
Qed.

(** ** The asset list *)

Lemma filter_significant (balances : list AssetRow) (r : AssetRow) :
  In r (List.filter (fun asset => (1 <? json_number asset.(usdtValue))%float)
          balances)
  <-> In r balances /\ significant r.
Proof.
  rewrite filter_In. unfold significant. split; intros [Hin H]; split; auto.
  - apply worth_json in H. tauto.
  - destruct H as [H1 Hf]. rewrite (json_worth _ H1 Hf). exact H1.
Qed.

Lemma comparefn_rank (a b : AssetRow) :
  significant a -> significant b ->
  (0 <? json_number b.(usdtValue) - json_number a.(usdtValue))%float
  = (rank a.(usdtValue) <? rank b.(usdtValue))%Z.
Proof.
  intros [Ha Hfa] [Hb Hfb].
  rewrite (json_worth _ Ha Hfa), (json_worth _ Hb Hfb).
  apply sub_rank; apply worth_pos_finite; assumption.
Qed.

(** displayAssets, the list it shows: at most eight rows; every row
    shown is a row of the response whose usdtValue is above 1 and
    finite; the rows are in descending order of usdtValue; and a row of
    the response with such a value that is not shown is worth no more
    than any row shown, which then are eight. *)
Theorem top_assets_shown (balances : list AssetRow) :
  (length (significantAssets balances) <= 8)%nat
  /\ (forall s, In s (significantAssets balances) ->
        In s balances
        /\ (1 <? s.(usdtValue))%float = true
        /\ PrimFloat.is_finite s.(usdtValue) = true)
  /\ StronglySorted (fun a b => (b.(usdtValue) <=? a.(usdtValue))%float = true)
       (significantAssets balances)
  /\ (forall r, In r balances ->
        (1 <? r.(usdtValue))%float = true ->
        PrimFloat.is_finite r.(usdtValue) = true ->
        In r (significantAssets balances)
        \/ (length (significantAssets balances) = 8%nat
            /\ forall s, In s (significantAssets balances) ->
                 (r.(usdtValue) <=? s.(usdtValue))%float = true)).
Proof.
  unfold significantAssets.
  set (cmp := fun a b : AssetRow =>
                (json_number b.(usdtValue) - json_number a.(usdtValue))%float).
  set (kept := List.filter _ balances).
  assert (Hkept : forall r, In r kept <-> In r balances /\ significant r)
    by (intros r; apply filter_significant).
  assert (Hall : Forall significant kept)
    by (apply List.Forall_forall; intros r Hr; apply Hkept in Hr; tauto).
  assert (Hsorted : StronglySorted (descending (fun r => rank r.(usdtValue)))
                      (sort cmp kept)).
  { apply (sort_sorted cmp significant); [ | exact Hall ].
    intros a b Ha Hb. apply comparefn_rank; assumption. }
  assert (Hshown : forall s, In s (firstn 8 (sort cmp kept)) ->
                             In s balances /\ significant s).
  { intros s Hs. apply firstn_In, sort_In in Hs. apply Hkept, Hs. }
  assert (Hleb : forall a b, significant a -> significant b ->
                   (rank b.(usdtValue) <= rank a.(usdtValue))%Z ->
                   (b.(usdtValue) <=? a.(usdtValue))%float = true).
  { intros a b [Ha Hfa] [Hb Hfb] H.
    rewrite leb_rank by (apply worth_pos_finite; assumption).
    apply Z.leb_le, H. }
  split; [ apply firstn_le_length | ]. split; [ | split ].
  - intros s Hs. apply Hshown in Hs. unfold significant in Hs. tauto.
  - apply (sorted_impl (descending (fun r => rank r.(usdtValue))) significant).
    + intros a b Ha Hb H. apply Hleb; assumption.
    + apply List.Forall_forall. intros s Hs. apply Hshown in Hs. tauto.
    + apply firstn_sorted, Hsorted.
  - intros r Hin H1 Hf.
    assert (Hr : In r (sort cmp kept))
      by (apply sort_In, Hkept; split; [ exact Hin | split; assumption ]).
    rewrite <- (firstn_skipn 8 (sort cmp kept)) in Hr.
    apply in_app_or in Hr as [ Hr | Hr ]; [ left; exact Hr | right ].
    split; [ exact (skipn_In_length 8 _ r Hr) | ].
    intros s Hs. apply Hleb.
    + apply Hshown in Hs. tauto.
    + split; assumption.
    + exact (firstn_before_skipn _ 8 _ s r Hsorted Hs Hr).
Qed.

End DashboardFacts.

(* ===================================================================== *)
(** * The sign of the total *)
(* ===================================================================== *)

Module SignFacts.

Import JsNumber Js Valuation ValuationSpec FloatOrder FloatFacts ValuationFacts.
Local Open Scope float_scope.

Lemma ltb_zero_r (x : float) : (x <? 0) = negb (nonneg_sf (Prim2SF x)).
Proof.
  rewrite FloatAxioms.ltb_spec, Prim2SF_zero.
  destruct (Prim2SF x) as [ [ | ] | [ | ] | | [ | ] m e ]; reflexivity.
Qed.

Lemma binary_round_aux_nonneg (m e : Z) (l : location) :
  nonneg_sf (binary_round_aux prec emax false m e l) = true.
Proof.
  unfold binary_round_aux.
  destruct (shr_fexp prec emax m e l) as [r1 e1].
  destruct (shr_fexp prec emax _ e1 loc_Exact) as [r2 e2].
  destruct (shr_m r2); try reflexivity.
  destruct (Z.leb e2 (emax - prec)); reflexivity.
Qed.

Lemma binary_round_nonneg (m : positive) (e : Z) :
  nonneg_sf (binary_round prec emax false m e) = true.
Proof.
  unfold binary_round. destruct (shl_align _ _ _) as [mz ez].
  apply binary_round_aux_nonneg.
Qed.

Lemma SFadd_nonneg (x y : spec_float) :
  nonneg_sf x = true -> nonneg_sf y = true -> nonneg_sf (SF64add x y) = true.
Proof.
  destruct x as [ [ | ] | [ | ] | | [ | ] mx ex ];
    destruct y as [ [ | ] | [ | ] | | [ | ] my ey ];
    simpl; try discriminate; try reflexivity.
  intros _ _. unfold SF64add, SFadd, binary_normalize.
  cbn [cond_Zopp Z.add]. apply binary_round_nonneg.
Qed.

Lemma SFmul_nonneg (x y : spec_float) :
  positive_sf x = true -> nonneg_sf y = true -> nonneg_sf (SF64mul x y) = true.
Proof.
  destruct x as [ [ | ] | [ | ] | | [ | ] mx ex ];
    destruct y as [ [ | ] | [ | ] | | [ | ] my ey ];
    simpl; try discriminate; try reflexivity.
  intros _ _. apply binary_round_aux_nonneg.
Qed.

Lemma positive_nonneg (x : spec_float) :
  positive_sf x = true -> nonneg_sf x = true.
Proof. destruct x as [ [ | ] | [ | ] | | [ | ] m e ]; simpl; congruence. Qed.

Lemma addBalance_nonneg (prices : Prices) (acc : float) (b : Balance) :
  (parseFloat (get prices (b.(asset) ++ "USDT")) <? 0) = false ->
  (acc <? 0) = false -> (addBalance prices acc b <? 0) = false.
Proof.
  rewrite !ltb_zero_r, !negb_false_iff. intros Hp Hacc.
  unfold addBalance, gt0. cbv zeta.
  destruct (0 <? parseFloat (free b) + parseFloat (locked b)) eqn:Hc;
    [ | exact Hacc ].
  rewrite ltb_zero in Hc.
  destruct (String.eqb (asset b) "USDT");
    [ rewrite FloatAxioms.add_spec;
      apply SFadd_nonneg; [ exact Hacc | apply positive_nonneg, Hc ] | ].
  destruct (String.eqb (asset b) "BUSD");
    [ rewrite FloatAxioms.add_spec;
      apply SFadd_nonneg; [ exact Hacc | apply positive_nonneg, Hc ] | ].
  destruct (truthy _); [ | exact Hacc ].
  rewrite FloatAxioms.add_spec, FloatAxioms.mul_spec.
  apply SFadd_nonneg; [ exact Hacc | ].
  apply SFmul_nonneg; assumption.
Qed.

Lemma fold_addBalance_nonneg (prices : Prices) (bs : list Balance) :
  (forall b, In b bs ->
             (parseFloat (get prices (b.(asset) ++ "USDT")) <? 0) = false) ->
  forall acc, (acc <? 0) = false ->
              (fold_left (addBalance prices) bs acc <? 0) = false.
Proof.
  induction bs as [ | b bs IH ]; intros H acc Hacc; simpl; [ exact Hacc | ].
  apply IH.
  - intros b' Hb'. apply H. right. exact Hb'.
  - apply addBalance_nonneg; [ apply H; left; reflexivity | exact Hacc ].
Qed.

(** calculateTotalBalance is never negative: when none of the prices it
    looks up parses to a negative number, the total it returns is not
    below zero (it is zero, positive or NaN), whatever the amounts are:
    negative and malformed amounts are not counted. *)
Theorem total_never_negative (bs : list Balance) (prices : Prices) :
  (forall b, In b bs ->
             (parseFloat (get prices (b.(asset) ++ "USDT")) <? 0) = false) ->
  (calculateTotalBalance bs prices <? 0) = false.
Proof.
  intros H. unfold calculateTotalBalance.
  apply fold_addBalance_nonneg; [ exact H | reflexivity ].
Qed.

Lemma total_never_negative_witness :
  (calculateTotalBalance Scenario.btc_usdt_balances Scenario.btc_prices <? 0)
  = false.
Proof.
  apply (total_never_negative Scenario.btc_usdt_balances Scenario.btc_prices).
  intros b [ <- | [ <- | [] ] ]; vm_compute; reflexivity.
Defined.

End SignFacts.
